(* ===== verification/_CoqProject ===== *)
-Q . S2P
Prelude.v
Transit.v
Uuid.v
Codec.v
Cache.v
Marshal.v
Accessor.v
Workflow.v
Selection.v
Cancel.v
Pipeline.v
