(* ===== verification/Prelude.v ===== *)
(** * cancel-circle-workflows: a verification development

    The program (src/src/index.ts, 112 lines of TypeScript) cancels
    superseded CircleCI workflow runs.  Its default export takes a session
    cookie, asks CircleCI's query API for the project's last 30 workflows
    (one request whose body is a transit-json map), decodes the transit
    answer, turns every workflow map into a flat [WorkflowInfo] record,
    keeps the records of the branch the build runs on, treats the first of
    them as the running build and sends one cancel request for every later
    record whose status is [running] or [blocked].  The cancel request is
    built by decoding a fixed transit template, overwriting the two values
    of its map through the key objects of that map, and re-encoding it.

    ** Parts of the program and where they are modelled

    - [Prelude] (this file): the JavaScript-level error channel ([exn],
      [result] with stdpp's monad notation), the [js_scope] notations, the
      tactics, the [cancel] and [cancel_rw] hint databases, and list lemmas shared by the
      components.
    - [Transit]: the data the program manipulates: transit values [tval]
      (strings, integers, booleans, null, keywords, symbols, UUIDs, dates,
      arrays, maps as ordered entry lists, tagged values), JSON trees
      [json], JavaScript values [jsval] (a transit value or [undefined]),
      the transit map operations [keySet], [get], [set] (transit-js
      TransitMap, array-map representation) and JavaScript truthiness.
    - [Uuid]: the canonical 8-4-4-4-12 hexadecimal form of a 128-bit UUID
      held as two 64-bit halves, its printer ([UUID.toString]) and parser
      ([transit.UUIDfromString]) with the round trip and its bounds.
    - [Codec], [Cache], [Marshal]: the transit-json reader and writer
      (the spec's Tagged-Value Codec, 4.1, called at index.ts 6-7, 64, 90,
      98), modelled from the spec and transit-js's documented behaviour
      since it is library code.  [Codec] is the string level: ["~:"],
      ["~$"], ["~u"], ["~m"], ["~i"], ["~?"], ["~_"] scalars, the ["~~"],
      ["~^"], ["~`"] escapes and ["~#tag"] strings.  [Cache] is transit's
      caching: which strings are cacheable, the codes ["^0"] .. ["^[["]
      (two base-44 digits, at most 1936 entries), the reader's cache
      (a map from index to entry that wraps to 0 when full) and the
      writer's (a map from string to index that is cleared when full), the
      reader as a state-error monad [RM] and the writer as a state monad
      [WM].  [Marshal] is the value level: ["^ "] maps, cmaps, arrays and
      tags; [read] and [write] start from an empty cache, as the reader
      and writer objects created at index.ts 6-7 clear theirs after each
      call.  The type class [Codec] (encode, decode, validity) with its
      laws [CodecLaws] is the interface the cancel command is proved
      against; [transit_codec] and [transit_codec_laws] are the transit
      instances.
    - [Accessor]: [extractFromTransitMapByName] (index.ts 84-87).
    - [Workflow]: [WorkflowStatus], [WorkflowInfo], [getInfoForWorkflow],
      [convertRawWorkflows] and lodash's [_.map] over a collection
      (index.ts 20-35, 68-82).
    - [Selection]: the branch filter, the destructuring into this build and
      older builds, the cancelable-status filter (index.ts 107-110), the
      spec's Selection Engine (4.5) as an abstract specification and the
      refinement between them.
    - [Cancel]: [cancelBuild] (index.ts 89-101): template decoding, the
      in-place update of the aliased map, the encoded request body.
    - [Pipeline]: the module state (the [cookie] variable and the
      [REQUEST_HEADERS] object evaluated at load time, index.ts 9-18), the
      list query ([getRawWorkflows], 41-66), the default export (103-112)
      as explicit state passing over a trace of sent requests, and
      [Promise.all] over the cancel promises.  What axios answers is a
      [World]: the answer to the list query, the answer to the i-th cancel
      request, and the order in which the cancel promises settle.  The
      module's life is the step relation [reachable]: the load, then any
      number of calls of the default export.

    ** What the theorems show

    The claims C1-C26 are the theorems whose doc comment carries their
    id; each theorem with hypotheses is followed, at the end of its file,
    by a witness ([..._witness]) that applies it to concrete data: sample
    workflows, a sample server answer ([Pipeline.sample_world]: five
    workflows, three to cancel, the second cancel request failing).

    - selection: a record is cancelled iff it is on the build's branch, has
      status [running] or [blocked], and is preceded by another record of
      the branch; the first record of the branch is never cancelled; the
      code refines the spec's selection except when the branch has no
      record, where it cancels nothing instead of failing;
    - lookup by name: the two-step [find]/[get] of the accessor equals a
      single scan for the first key of that name, does not depend on entry
      order when names are unique, returns [undefined] on a missing name
      and throws a TypeError on a non-map;
    - conversion: a [results] entry that is not an array (missing, null,
      a string, a map) is not refused as malformed: the run sends the
      list query only and fulfils having cancelled nothing, or throws a
      TypeError;
    - extraction: every field comes from its key, a missing field gives an
      [undefined] field (no FieldNotFound), a missing trigger-info throws;
    - codec: every value the reader produces is well formed; for every
      well-formed value the cached writer's output is read back to that
      value ([Marshal.write_read]): the reader's cache stays the mirror
      of the writer's ([Cache.mirror], [Cache.decodeString_emit]), and
      every index below 1936 has a code that decodes back to it
      ([Cache.codes_ok], checked on all 1936 indexes by evaluation); so
      the workflow list is the same whether or not the server used cache
      codes; the UUID text form round-trips for all 64-bit halves, and the
      parser only yields 64-bit halves ([Uuid.uuid_from_string_range]);
    - cancellation: the key objects of the template survive the update,
      the body carries the keys ["~:run/id"] and ["~:run/name"] whatever
      the values, and the UUID sent is the one the server returned;
    - pipeline: the list query is sent before any cancel request, one
      cancel request per target in order, a falsy cookie sends nothing, no
      request ever carries the cookie (REQUEST_HEADERS is built at load
      time; an invariant of [reachable] proved by rule induction), a
      failed list query aborts before any cancellation, a run fulfils
      exactly when every build to cancel has a command that builds and a
      request that succeeds, and a rejected run
      reports the failure of one build only, while every target whose
      command builds still gets its request (liveness).

    ** What is not modelled

    The HTTP transport and JSON text ([JSON.stringify]/[JSON.parse]) are
    not modelled: responses are given as JSON trees by a [World] record.
    Of transit, sets (["~#set"]), one-letter tags other than the ones
    above and the verbose format are not used by the program and are
    reported as unmodelled by the reader; other tags are kept as generic
    tagged values.  The
    reader is modelled at the level of the format: transit-js's reader
    reads the head of a two-element array through its cache in a way that
    can take a cached tag for a different value; the model always decodes
    the head as a tag, and a ["~#tag"] string elsewhere is refused where
    transit-js returns a Tag object; no writer produces either input.
    transit-js's writer reset after 4096 distinct strings is not modelled
    (see [Cache]).  A cache left half-filled by a throwing read or write
    is not modelled since the objects clear it only on success and the
    program never reuses them after a throw.  transit-js's hash-map
    representation of maps of more than 32 entries (whose key order
    differs) is not modelled; JSON numbers are integers.
    JavaScript strings that the model does not compute ([toString] of
    dates, maps, arrays) are kept abstract, and [UUIDfromString] on text
    outside the canonical form is reported as unmodelled.  The [fs]
    import is unused.

    ** Bounds and fuel

    No fuel is needed: every function is structurally recursive (the
    reader and writer by nested [fix] over the value or JSON tree).  The
    caches are bounded by MAX_CACHE_ENTRIES = 44 * 44 = 1936, the number of
    two-digit codes, and the code round trip is checked on exactly those
    indexes.  UUID
    halves are integers ([Z]) whose 64-bit range is a hypothesis of the
    round trip and a conclusion of the parser's bounds lemma; the
    printer takes each field modulo its width as transit-js does. *)

From Stdlib Require Import ZArith String Ascii List Lia.
From stdpp Require Import base list strings option.

Declare Scope js_scope.
Delimit Scope js_scope with js.
Open Scope js_scope.

(** ** The JavaScript error channel *)

(** The exceptions the program can raise or see a promise rejected with. *)
Inductive exn :=
| TypeError (what : string)          (** calling a method of a non-object *)
| SyntaxError (what : string)        (** [JSON.parse] on [undefined] *)
| ThrowError (message : string)     (** [throw new Error(message)] *)
| HttpError (status : Z)             (** an axios request rejected *)
| MalformedEnvelope (what : string)  (** the transit reader refused a payload *)
| Unmodelled (what : string).       (** behaviour outside the model *)

(** A computation that returns a value or throws. *)
Inductive result (A : Type) :=
| Ok (a : A)
| Throw (e : exn).
Arguments Ok {A} a.
Arguments Throw {A} e.

#[export] Instance result_ret : MRet result := fun _ a => Ok a.
#[export] Instance result_bind : MBind result :=
  fun _ _ f m => match m with Ok a => f a | Throw e => Throw e end.
#[export] Instance result_fmap : FMap result :=
  fun _ _ f m => match m with Ok a => Ok (f a) | Throw e => Throw e end.

(** [mapM] over a list: the first exception aborts the traversal. *)
Fixpoint mapR {A B} (f : A -> result B) (l : list A) : result (list B) :=
  match l with
  | [] => Ok []
  | x :: l' => y ← f x; ys ← mapR f l'; Ok (y :: ys)
  end.

Definition is_ok {A} (r : result A) : bool :=
  match r with Ok _ => true | Throw _ => false end.

Notation "'undefined'" := (@None _) (only parsing) : js_scope.

(** ** Tactics and hints *)

Create HintDb cancel.
Create Rewrite HintDb cancel_rw.

(** Split a bind whose first computation is named by an equation. *)
Ltac bind_res H :=
  lazymatch goal with
  | |- context [mbind _ ?m] => destruct m eqn:H; cbn
  end.

Ltac invc H := inversion H; subst; clear H.

(** ** Shared lemmas *)

Lemma bind_Ok {A B} (m : result A) (f : A -> result B) b :
  (m ≫= f) = Ok b <-> exists a, m = Ok a /\ f a = Ok b.
Proof.
  destruct m as [a|e]; cbn; split.
  - eauto.
  - intros (a' & Ha & Hf). injection Ha as <-. exact Hf.
  - discriminate.
  - intros (a' & Ha & _). discriminate.
Qed.

Lemma mapR_Ok {A B} (f : A -> result B) l ys :
  mapR f l = Ok ys <-> Forall2 (fun x y => f x = Ok y) l ys.
Proof.
  revert ys; induction l as [|x l IH]; intros ys; cbn.
  - split; [intros H; injection H as <-; constructor|intros H; invc H; reflexivity].
  - split.
    + destruct (f x) as [y|e] eqn:Hf; cbn; [|discriminate].
      destruct (mapR f l) as [ys'|e] eqn:Hl; cbn; [|discriminate].
      intros H; injection H as <-. constructor; [done|by apply IH].
    + intros H; inv H. match goal with Hf : f x = Ok _ |- _ => rewrite Hf end.
      cbn. erewrite (proj2 (IH _)) by eassumption. reflexivity.
Qed.

Lemma mapR_length {A B} (f : A -> result B) l ys :
  mapR f l = Ok ys -> length ys = length l.
Proof. intros H%mapR_Ok. symmetry. by eapply Forall2_length. Qed.

Lemma mapR_map_Ok {A B} (f : B -> result A) (g : A -> B) (l : list A) :
  Forall (fun x => f (g x) = Ok x) l -> mapR f (map g l) = Ok l.
Proof. induction 1 as [|x l Hx _ IH]; cbn; [done|]. rewrite Hx; cbn. by rewrite IH. Qed.

Lemma mapR_Forall {A B} (f : A -> result B) (P : B -> Prop) l ys :
  Forall (fun x => forall y, f x = Ok y -> P y) l -> mapR f l = Ok ys -> Forall P ys.
Proof.
  intros Hl Hm%mapR_Ok. induction Hm as [|x y l ys Hxy _ IH]; [constructor|].
  inversion Hl; subst. constructor; auto.
Qed.

(** The first exception raised by [mapR] is the one of the first failing
    element. *)
Lemma mapR_Throw {A B} (f : A -> result B) l e :
  mapR f l = Throw e <->
  exists pre x post ys, l = pre ++ x :: post /\
    Forall2 (fun x y => f x = Ok y) pre ys /\ f x = Throw e.
Proof.
  induction l as [|x l IH]; cbn.
  - split; [discriminate|]. intros (pre & ? & ? & ? & H & _). by destruct pre.
  - split.
    + destruct (f x) as [y|e'] eqn:Hf; cbn; [|intros [= ->]; exists [], x, l, []; split; [done|split; [constructor|done]]].
      destruct (mapR f l) as [ys|e''] eqn:Hl; cbn; [discriminate|].
      intros [= ->]. destruct (proj1 IH eq_refl) as (pre & x' & post & ys' & -> & Hpre & Hx).
      exists (x :: pre), x', post, (y :: ys'). split; [done|]. split; [by constructor|done].
    + intros (pre & x' & post & ys' & Hl' & Hpre & Hx).
      destruct pre as [|p pre]; cbn in Hl'; injection Hl' as Hp Hl'; subst.
      * invc Hpre. by rewrite Hx.
      * invc Hpre. match goal with Hf : f p = Ok _ |- _ => rewrite Hf end. cbn.
        assert (Hc : mapR f (pre ++ x' :: post) = Throw e) by (apply IH; do 4 eexists; eauto).
        by rewrite Hc.
Qed.

Lemma Forall2_map_l {A B C} (P : B -> C -> Prop) (f : A -> B) l k :
  Forall2 P (map f l) k <-> Forall2 (fun x y => P (f x) y) l k.
Proof.
  revert k; induction l as [|x l IH]; intros [|y k]; cbn;
    split; intros H; inversion H; subst; constructor; try done; by apply IH.
Qed.

(** [filter] on a split list. *)
Lemma filter_app_cons {A} (p : A -> bool) pre x post :
  List.filter p (pre ++ x :: post) =
  List.filter p pre ++ (if p x then x :: List.filter p post else List.filter p post).
Proof. rewrite filter_app. cbn. by destruct (p x). Qed.

Lemma filter_nil_Forall {A} (p : A -> bool) l :
  List.filter p l = [] <-> Forall (fun x => p x = false) l.
Proof.
  induction l as [|x l IH]; cbn; [split; constructor|].
  destruct (p x) eqn:Hp; split.
  - discriminate.
  - intros H; invc H; congruence.
  - intros H%IH. by constructor.
  - intros H; inv H. by apply IH.
Qed.

(** Strings.  stdpp makes [String.append] [simpl never]; these equations
    take its place. *)
Lemma str_app_nil_l (a : string) : ("" ++ a)%string = a.
Proof. reflexivity. Qed.

Lemma str_app_cons x (a b : string) : (String x a ++ b)%string = String x (a ++ b).
Proof. reflexivity. Qed.

Ltac str_simpl := rewrite ?str_app_cons, ?str_app_nil_l.

Lemma str_app_assoc (a b c : string) : (a ++ b ++ c)%string = ((a ++ b) ++ c)%string.
Proof. induction a as [|x a IH]; str_simpl; [done|by rewrite IH]. Qed.

Lemma str_app_nil_r (a : string) : (a ++ "")%string = a.
Proof. induction a as [|x a IH]; str_simpl; [done|by rewrite IH]. Qed.

Lemma str_length_app (a b : string) :
  String.length (a ++ b) = (String.length a + String.length b)%nat.
Proof. induction a as [|x a IH]; str_simpl; cbn; [done|by rewrite IH]. Qed.

#[export] Hint Resolve mapR_length : cancel.
#[export] Hint Rewrite @filter_app_cons : cancel_rw.
