(* ===== verification/Transit.v ===== *)
(** * Transit values, JSON trees, JavaScript values and transit maps

    The values the program handles: the transit values transit-js decodes
    ([tval]), the JSON trees axios and [JSON.parse] exchange ([json]), the
    JavaScript values of the TypeScript code ([jsval]: a transit value or
    [undefined]), and the three operations of transit-js's TransitMap the
    program calls: [keySet] (index.ts 85, 92), [get] (86) and [set] (94,
    95).  Maps are kept as their entry lists in insertion order, the
    array-map representation transit-js uses for the maps of this program;
    duplicate keys are kept, and [get] returns the first equal key. *)

From Stdlib Require Import ZArith String Ascii List Lia.
From stdpp Require Import base list strings option countable.
From S2P Require Import Prelude.

(** ** Transit values *)

#[local] Set Warnings "-register-all".

(** One constructor per transit type the program meets.  A UUID keeps the
    two 64-bit halves transit-js stores in its [high] and [low] fields; a
    date is its time in milliseconds; [TTagged] is transit-js's
    [TaggedValue] (the decoded form of ["~#list"]). *)
Inductive tval :=
| TNull
| TBool (b : bool)
| TInt (z : Z)
| TStr (s : string)
| TKeyword (name : string)
| TSymbol (name : string)
| TUUID (high low : Z)
| TDate (ms : Z)
| TArray (xs : list tval)
| TMap (kvs : list (tval * tval))
| TTagged (tag : string) (rep : tval).

(** The nested induction principle, with the hypotheses on the elements of
    arrays and maps as [Forall]. *)
Section tval_ind'.
  Variable P : tval -> Prop.
  Hypothesis HNull : P TNull.
  Hypothesis HBool : forall b, P (TBool b).
  Hypothesis HInt : forall z, P (TInt z).
  Hypothesis HStr : forall s, P (TStr s).
  Hypothesis HKeyword : forall s, P (TKeyword s).
  Hypothesis HSymbol : forall s, P (TSymbol s).
  Hypothesis HUUID : forall h l, P (TUUID h l).
  Hypothesis HDate : forall ms, P (TDate ms).
  Hypothesis HArray : forall xs, Forall P xs -> P (TArray xs).
  Hypothesis HMap : forall kvs, Forall (fun kv => P kv.1 /\ P kv.2) kvs -> P (TMap kvs).
  Hypothesis HTagged : forall t r, P r -> P (TTagged t r).

Fixpoint tval_ind' (v : tval) : P v :=
    match v with
    | TNull => HNull
    | TBool b => HBool b
    | TInt z => HInt z
    | TStr s => HStr s
    | TKeyword s => HKeyword s
    | TSymbol s => HSymbol s
    | TUUID h l => HUUID h l
    | TDate ms => HDate ms
    | TArray xs => HArray xs
        ((fix go (xs : list tval) : Forall P xs :=
            match xs with
            | [] => Forall_nil_2 _
            | x :: xs' => Forall_cons_2 _ _ _ (tval_ind' x) (go xs')
            end) xs)
    | TMap kvs => HMap kvs
        ((fix go (kvs : list (tval * tval)) : Forall (fun kv => P kv.1 /\ P kv.2) kvs :=
            match kvs with
            | [] => Forall_nil_2 _
            | kv :: kvs' => Forall_cons_2 _ _ _
                (match kv as kv0 return P kv0.1 /\ P kv0.2 with
                 | (k, w) => conj (tval_ind' k) (tval_ind' w)
                 end) (go kvs')
            end) kvs)
    | TTagged t r => HTagged t r (tval_ind' r)
    end.
End tval_ind'.

(** Decidable equality and countability through stdpp's generic trees. *)
Fixpoint tval_to_tree (v : tval) : gen_tree (string + Z + bool) :=
  match v with
  | TNull => GenNode 0 []
  | TBool b => GenNode 1 [GenLeaf (inr b)]
  | TInt z => GenNode 2 [GenLeaf (inl (inr z))]
  | TStr s => GenNode 3 [GenLeaf (inl (inl s))]
  | TKeyword s => GenNode 4 [GenLeaf (inl (inl s))]
  | TSymbol s => GenNode 5 [GenLeaf (inl (inl s))]
  | TUUID h l => GenNode 6 [GenLeaf (inl (inr h)); GenLeaf (inl (inr l))]
  | TDate ms => GenNode 7 [GenLeaf (inl (inr ms))]
  | TArray xs => GenNode 8 (map tval_to_tree xs)
  | TMap kvs => GenNode 9 (map (fun kv => GenNode 0 [tval_to_tree kv.1; tval_to_tree kv.2]) kvs)
  | TTagged t r => GenNode 10 [GenLeaf (inl (inl t)); tval_to_tree r]
  end.

Fixpoint tval_of_tree (t : gen_tree (string + Z + bool)) : tval :=
  match t with
  | GenNode 1 [GenLeaf (inr b)] => TBool b
  | GenNode 2 [GenLeaf (inl (inr z))] => TInt z
  | GenNode 3 [GenLeaf (inl (inl s))] => TStr s
  | GenNode 4 [GenLeaf (inl (inl s))] => TKeyword s
  | GenNode 5 [GenLeaf (inl (inl s))] => TSymbol s
  | GenNode 6 [GenLeaf (inl (inr h)); GenLeaf (inl (inr l))] => TUUID h l
  | GenNode 7 [GenLeaf (inl (inr ms))] => TDate ms
  | GenNode 8 ts => TArray (map tval_of_tree ts)
  | GenNode 9 ts =>
      TMap (map (fun t => match t with
                          | GenNode _ [k; w] => (tval_of_tree k, tval_of_tree w)
                          | _ => (TNull, TNull)
                          end) ts)
  | GenNode 10 [GenLeaf (inl (inl t)); r] => TTagged t (tval_of_tree r)
  | _ => TNull
  end.

Lemma tval_of_to_tree v : tval_of_tree (tval_to_tree v) = v.
Proof.
  induction v using tval_ind'; cbn; try reflexivity.
  - f_equal. rewrite map_map. induction xs as [|x xs IHxs]; [done|].
    inversion H; subst; cbn. f_equal; auto.
  - f_equal. rewrite map_map. induction kvs as [|[k w] kvs IHkvs]; [done|].
    inversion H as [|? ? [Hk Hw] Hrest]; subst; cbn in *. f_equal; [by rewrite Hk, Hw|auto].
  - by rewrite IHv.
Qed.

#[export] Instance tval_eq_dec : EqDecision tval.
Proof.
  intros x y. destruct (decide (tval_to_tree x = tval_to_tree y)) as [H|H].
  - left. by rewrite <- (tval_of_to_tree x), <- (tval_of_to_tree y), H.
  - right. intros ->. by apply H.
Defined.

#[export] Instance tval_countable : Countable tval :=
  inj_countable' tval_to_tree tval_of_tree tval_of_to_tree.

(** ** JSON trees *)

(** The JSON values [JSON.parse] produces; numbers are integers. *)
Inductive json :=
| JNull
| JBool (b : bool)
| JNum (z : Z)
| JStr (s : string)
| JArr (xs : list json)
| JObj (fields : list (string * json)).

Section json_ind'.
  Variable P : json -> Prop.
  Hypothesis HNull : P JNull.
  Hypothesis HBool : forall b, P (JBool b).
  Hypothesis HNum : forall z, P (JNum z).
  Hypothesis HStr : forall s, P (JStr s).
  Hypothesis HArr : forall xs, Forall P xs -> P (JArr xs).
  Hypothesis HObj : forall fs, Forall (fun f => P f.2) fs -> P (JObj fs).

Fixpoint json_ind' (j : json) : P j :=
    match j with
    | JNull => HNull
    | JBool b => HBool b
    | JNum z => HNum z
    | JStr s => HStr s
    | JArr xs => HArr xs
        ((fix go (xs : list json) : Forall P xs :=
            match xs with
            | [] => Forall_nil_2 _
            | x :: xs' => Forall_cons_2 _ _ _ (json_ind' x) (go xs')
            end) xs)
    | JObj fs => HObj fs
        ((fix go (fs : list (string * json)) : Forall (fun f => P f.2) fs :=
            match fs with
            | [] => Forall_nil_2 _
            | f :: fs' => Forall_cons_2 _ _ _
                (match f as f0 return P f0.2 with (_, x) => json_ind' x end) (go fs')
            end) fs)
    end.
End json_ind'.

(** ** JavaScript values *)

(** A JavaScript value of the program: a transit value, or [undefined]
    ([None]). *)
Abbreviation jsval := (option tval).

(** [!v] is false exactly for the falsy values ([NaN] aside, which the
    model's integers do not have). *)
Definition js_truthy (v : jsval) : bool :=
  match v with
  | None | Some TNull => false
  | Some (TBool b) => b
  | Some (TInt z) => negb (Z.eqb z 0)
  | Some (TStr s) => negb (String.eqb s "")
  | Some _ => true
  end.

(** [v === s] for a value [v] and an environment variable [s] (a string
    or [undefined]). *)
Definition js_eq_env (v : jsval) (s : option string) : bool :=
  match v, s with
  | None, None => true
  | Some (TStr x), Some y => String.eqb x y
  | _, _ => false
  end.

(** [k._name]: keywords and symbols carry their full namespaced name in
    the [_name] field; other values have none. *)
Definition key_name (k : tval) : option string :=
  match k with
  | TKeyword n | TSymbol n => Some n
  | _ => None
  end.

(** ** transit-js maps *)

(** [m.keySet()]: the keys in entry order. *)
Definition keySet (kvs : list (tval * tval)) : list tval := map fst kvs.

(** [m.get(k)]: the value of the first entry whose key equals [k];
    [undefined] when there is none or when [k] is [undefined]. *)
Fixpoint tmap_get (kvs : list (tval * tval)) (k : tval) : jsval :=
  match kvs with
  | [] => None
  | (k', v) :: kvs' => if decide (k' = k) then Some v else tmap_get kvs' k
  end.

Definition get (kvs : list (tval * tval)) (k : jsval) : jsval :=
  match k with
  | None => None
  | Some k => tmap_get kvs k
  end.

(** [m.set(k, v)]: overwrite the value of the first entry whose key equals
    [k], keeping that entry's key object; append an entry otherwise. *)
Fixpoint set (kvs : list (tval * tval)) (k v : tval) : list (tval * tval) :=
  match kvs with
  | [] => [(k, v)]
  | (k', w) :: kvs' => if decide (k' = k) then (k', v) :: kvs' else (k', w) :: set kvs' k v
  end.

(** ** Lemmas on the map operations *)

Lemma tmap_get_app kvs1 kvs2 k :
  tmap_get (kvs1 ++ kvs2) k =
  match tmap_get kvs1 k with Some v => Some v | None => tmap_get kvs2 k end.
Proof. induction kvs1 as [|[k' w] kvs1 IH]; cbn; [done|]. by case_decide. Qed.

Lemma tmap_get_In kvs k v : tmap_get kvs k = Some v -> In (k, v) kvs.
Proof.
  induction kvs as [|[k' w] kvs IH]; cbn; [discriminate|].
  case_decide; [intros [= <-]; subst; by left|intros H'; right; auto].
Qed.

Lemma tmap_get_Some_key kvs k : In k (keySet kvs) -> exists v, tmap_get kvs k = Some v.
Proof.
  induction kvs as [|[k' w] kvs IH]; cbn; [done|].
  intros [->|Hin]; case_decide; eauto; congruence.
Qed.

(** [set] on a present key keeps the key list, key objects included. *)
Lemma keySet_set kvs k v : In k (keySet kvs) -> keySet (set kvs k v) = keySet kvs.
Proof.
  induction kvs as [|[k' w] kvs IH]; cbn; [done|].
  intros Hin. case_decide; cbn; [done|]. f_equal. apply IH. destruct Hin as [->|Hin]; [congruence|exact Hin].
Qed.

Lemma tmap_get_set_eq kvs k v : tmap_get (set kvs k v) k = Some v.
Proof.
  induction kvs as [|[k' w] kvs IH]; cbn; [by rewrite decide_True|].
  case_decide; cbn; [by rewrite decide_True|]. by rewrite decide_False.
Qed.

Lemma tmap_get_set_ne kvs k k0 v : k <> k0 -> tmap_get (set kvs k v) k0 = tmap_get kvs k0.
Proof.
  intros Hne. induction kvs as [|[k' w] kvs IH]; cbn.
  - by rewrite decide_False.
  - case_decide; cbn; [subst; by rewrite !decide_False|]. by case_decide.
Qed.

#[export] Hint Resolve tmap_get_In tmap_get_Some_key : cancel.
#[export] Hint Rewrite tmap_get_set_eq tmap_get_app : cancel_rw.
