(* ===== verification/Uuid.v ===== *)
(** * The text form of UUIDs

    transit-js keeps a UUID as two 64-bit halves ([high], [low]).
    [UUID.prototype.toString] prints them as 32 lowercase hexadecimal
    digits grouped 8-4-4-4-12; [transit.UUIDfromString] removes the dashes
    and reads the first 16 digits into [high] and the next 16 into [low].
    The program uses both: [getInfoForWorkflow] turns the server's UUID into
    a string (index.ts 76) and [cancelBuild] turns it back (index.ts 94).
    The parser is modelled where the 32 characters after removing the
    dashes are hexadecimal digits; elsewhere it returns [None] (JavaScript
    computes some UUID from the garbage; the model does not). *)

From Stdlib Require Import ZArith String Ascii List Lia.
From stdpp Require Import base list strings option.
From S2P Require Import Prelude.

Local Open Scope Z_scope.

(** ** Hexadecimal digits *)

Definition hex_char (d : Z) : ascii :=
  match d with
  | 0 => "0" | 1 => "1" | 2 => "2" | 3 => "3" | 4 => "4" | 5 => "5"
  | 6 => "6" | 7 => "7" | 8 => "8" | 9 => "9" | 10 => "a" | 11 => "b"
  | 12 => "c" | 13 => "d" | 14 => "e" | _ => "f"
  end%char.

(** [parseInt(c, 16)] on one character. *)
Definition hex_val (c : ascii) : option Z :=
  let n := Z.of_N (N_of_ascii c) in
  if (48 <=? n) && (n <=? 57) then Some (n - 48)
  else if (97 <=? n) && (n <=? 102) then Some (n - 87)
  else if (65 <=? n) && (n <=? 70) then Some (n - 55)
  else None.

(** [w] hexadecimal digits of [n], most significant first, before [acc]. *)
Fixpoint to_hex (w : nat) (n : Z) (acc : string) : string :=
  match w with
  | O => acc
  | S w' => to_hex w' (n / 16) (String (hex_char (n mod 16)) acc)
  end.

(** The number the hexadecimal digits of [s] denote after [acc]. *)
Fixpoint parse_hex (s : string) (acc : Z) : option Z :=
  match s with
  | EmptyString => Some acc
  | String c s' => d ← hex_val c; parse_hex s' (acc * 16 + d)
  end.

Fixpoint strip_dashes (s : string) : string :=
  match s with
  | EmptyString => EmptyString
  | String c s' => if Ascii.eqb c "-" then strip_dashes s' else String c (strip_dashes s')
  end.

(** ** The UUID text form *)

(** [UUID.prototype.toString]. *)
Definition uuid_to_string (high low : Z) : string :=
  (to_hex 8 (Z.shiftr high 32) "" ++ "-" ++
   to_hex 4 (Z.land (Z.shiftr high 16) 65535) "" ++ "-" ++
   to_hex 4 (Z.land high 65535) "" ++ "-" ++
   to_hex 4 (Z.shiftr low 48) "" ++ "-" ++
   to_hex 12 (Z.land low 281474976710655) "")%string.

(** [transit.UUIDfromString]: the halves read from the first 16 and the
    next 16 digits once the dashes are removed. *)
Definition uuid_from_string (s : string) : option (Z * Z) :=
  let t := strip_dashes s in
  let h := substring 0 16 t in
  let l := substring 16 16 t in
  if (String.length h =? 16)%nat && (String.length l =? 16)%nat then
    high ← parse_hex h 0; low ← parse_hex l 0; Some (high, low)
  else None.

(** ** Lemmas *)

Lemma hex_val_char d : 0 <= d < 16 -> hex_val (hex_char d) = Some d.
Proof.
  intros Hd.
  assert (d = 0 \/ d = 1 \/ d = 2 \/ d = 3 \/ d = 4 \/ d = 5 \/ d = 6 \/ d = 7 \/
          d = 8 \/ d = 9 \/ d = 10 \/ d = 11 \/ d = 12 \/ d = 13 \/ d = 14 \/ d = 15)
    as Hcases by lia.
  destruct_or! Hcases; subst; reflexivity.
Qed.

Lemma hex_char_not_dash d : Ascii.eqb (hex_char d) "-" = false.
Proof.
  unfold hex_char. destruct d as [|p|p]; [done| |done].
  repeat (destruct p as [p|p|]; try done).
Qed.

Lemma to_hex_acc w n acc : to_hex w n acc = (to_hex w n "" ++ acc)%string.
Proof.
  revert n acc; induction w as [|w IH]; intros n acc; cbn; [done|].
  rewrite IH, (IH _ (String _ "")), <- str_app_assoc. by str_simpl.
Qed.

Lemma to_hex_length w n : String.length (to_hex w n "") = w.
Proof.
  revert n; induction w as [|w IH]; intros n; cbn; [done|].
  rewrite to_hex_acc, str_length_app, IH. cbn. lia.
Qed.

Lemma strip_dashes_app s1 s2 :
  strip_dashes (s1 ++ s2) = (strip_dashes s1 ++ strip_dashes s2)%string.
Proof. induction s1 as [|c s1 IH]; str_simpl; cbn; [done|]. destruct (Ascii.eqb c "-"); by rewrite IH. Qed.

Lemma strip_dashes_hex w n : strip_dashes (to_hex w n "") = to_hex w n "".
Proof.
  revert n; induction w as [|w IH]; intros n; cbn; [done|].
  rewrite to_hex_acc, strip_dashes_app, IH. cbn. by rewrite hex_char_not_dash.
Qed.

Lemma parse_hex_app s1 s2 acc :
  parse_hex (s1 ++ s2) acc = (a ← parse_hex s1 acc; parse_hex s2 a).
Proof.
  revert acc; induction s1 as [|c s1 IH]; intros acc; str_simpl; cbn; [done|].
  destruct (hex_val c); cbn; [apply IH|done].
Qed.

(** Reading [w] printed digits of [n < 16^w] shifts [n] in. *)
Lemma parse_to_hex w n acc :
  0 <= n < 16 ^ Z.of_nat w ->
  parse_hex (to_hex w n "") acc = Some (acc * 16 ^ Z.of_nat w + n).
Proof.
  revert n acc; induction w as [|w IH]; intros n acc Hn; cbn -[Z.pow].
  - f_equal. cbn in Hn. lia.
  - rewrite to_hex_acc, parse_hex_app.
    assert (Hpow : 16 ^ Z.of_nat (S w) = 16 ^ Z.of_nat w * 16)
      by (rewrite Nat2Z.inj_succ, Z.pow_succ_r; lia).
    rewrite IH by (split; [apply Z.div_pos; lia|apply Z.div_lt_upper_bound; lia]).
    cbn. rewrite hex_val_char by (apply Z.mod_pos_bound; lia). cbn. f_equal.
    rewrite Hpow. pose proof (Z.div_mod n 16). lia.
Qed.

Lemma substring_app_l s1 s2 :
  substring 0 (String.length s1) (s1 ++ s2) = s1.
Proof. induction s1 as [|c s1 IH]; str_simpl; cbn; [by destruct s2|by rewrite IH]. Qed.

Lemma substring_app_r s1 s2 m :
  substring (String.length s1) m (s1 ++ s2) = substring 0 m s2.
Proof. induction s1 as [|c s1 IH]; str_simpl; cbn; [done|apply IH]. Qed.

Lemma substring_prefix s1 s2 n :
  String.length s1 = n -> substring 0 n (s1 ++ s2) = s1.
Proof. intros <-. apply substring_app_l. Qed.

Lemma substring_suffix s1 s2 n m :
  String.length s1 = n -> substring n m (s1 ++ s2) = substring 0 m s2.
Proof. intros <-. apply substring_app_r. Qed.

Lemma substring_rest s1 s2 n m :
  String.length s1 = n -> String.length s2 = m -> substring n m (s1 ++ s2) = s2.
Proof.
  intros H1 <-. rewrite substring_suffix by done.
  pose proof (substring_app_l s2 "") as H. by rewrite str_app_nil_r in H.
Qed.

Lemma substring_full s : substring 0 (String.length s) s = s.
Proof. pose proof (substring_app_l s "") as H. by rewrite str_app_nil_r in H. Qed.

(** Printing [n] on [w1 + w2] digits prints its high and low parts. *)
Lemma to_hex_split w1 w2 n acc :
  to_hex (w2 + w1) n acc = to_hex w1 (n / 16 ^ Z.of_nat w2) (to_hex w2 n acc).
Proof.
  revert n acc; induction w2 as [|w2 IH]; intros n acc; cbn -[Z.pow].
  - by rewrite Z.div_1_r.
  - rewrite IH. f_equal. rewrite Nat2Z.inj_succ, Z.pow_succ_r by lia.
    by rewrite Z.div_div by lia.
Qed.

Lemma to_hex_mod w n acc :
  to_hex w (n mod 16 ^ Z.of_nat w) acc = to_hex w n acc.
Proof.
  revert n acc; induction w as [|w IH]; intros n acc; cbn -[Z.pow]; [done|].
  rewrite Nat2Z.inj_succ, Z.pow_succ_r by lia.
  assert (Hsplit : n mod (16 * 16 ^ Z.of_nat w) =
                   n mod 16 + (n / 16 mod 16 ^ Z.of_nat w) * 16)
    by (rewrite Z.rem_mul_r by lia; lia).
  assert (H1 : n mod (16 * 16 ^ Z.of_nat w) mod 16 = n mod 16)
    by (rewrite Hsplit, Z.mod_add by lia; apply Z.mod_mod; lia).
  assert (H2 : n mod (16 * 16 ^ Z.of_nat w) / 16 mod 16 ^ Z.of_nat w =
               n / 16 mod 16 ^ Z.of_nat w).
  { rewrite Hsplit, Z.div_add by lia.
    rewrite (Z.div_small (n mod 16)) by (apply Z.mod_pos_bound; lia).
    rewrite Z.add_0_l. apply Z.mod_mod; lia. }
  rewrite <- (IH (n / 16)), <- (IH (n mod (16 * 16 ^ Z.of_nat w) / 16)).
  by rewrite H1, H2.
Qed.

#[export] Hint Rewrite strip_dashes_app strip_dashes_hex to_hex_length : cancel_rw.

(** The 16 digits of a half are its 8-4-4 groups. *)
Lemma to_hex_high n :
  to_hex 16 n "" = (to_hex 8 (Z.shiftr n 32) "" ++
                    to_hex 4 (Z.land (Z.shiftr n 16) 65535) "" ++
                    to_hex 4 (Z.land n 65535) "")%string.
Proof.
  change 65535 with (Z.ones 16).
  rewrite !Z.land_ones, !Z.shiftr_div_pow2 by lia.
  change (2 ^ 32) with (16 ^ Z.of_nat 8). change (2 ^ 16) with (16 ^ Z.of_nat 4).
  rewrite (to_hex_split 8 8), (to_hex_split 4 4 n), !to_hex_mod.
  by rewrite (to_hex_acc 8), (to_hex_acc 4 (n / _)).
Qed.

Lemma to_hex_low n :
  to_hex 16 n "" = (to_hex 4 (Z.shiftr n 48) "" ++ to_hex 12 (Z.land n 281474976710655) "")%string.
Proof.
  change 281474976710655 with (Z.ones 48).
  rewrite Z.land_ones, Z.shiftr_div_pow2 by lia.
  change (2 ^ 48) with (16 ^ Z.of_nat 12).
  by rewrite (to_hex_split 4 12), to_hex_mod, to_hex_acc.
Qed.

(** Without its dashes, the text form is the 32 digits of the halves. *)
Lemma strip_uuid_to_string high low :
  strip_dashes (uuid_to_string high low) = (to_hex 16 high "" ++ to_hex 16 low "")%string.
Proof.
  unfold uuid_to_string. rewrite to_hex_high, to_hex_low.
  autorewrite with cancel_rw. cbn. by rewrite !str_app_nil_l, <- !str_app_assoc.
Qed.

Lemma hex_val_range c d : hex_val c = Some d -> 0 <= d < 16.
Proof.
  unfold hex_val.
  repeat match goal with |- context [if ?b then _ else _] => destruct b eqn:?Hb end;
    intros; simplify_eq; rewrite ?andb_true_iff, ?Z.leb_le in *; lia.
Qed.

(** The digits read never exceed the number of digits. *)
Lemma parse_hex_bounds s acc r :
  0 <= acc -> parse_hex s acc = Some r ->
  acc * 16 ^ Z.of_nat (String.length s) <= r < (acc + 1) * 16 ^ Z.of_nat (String.length s).
Proof.
  revert acc; induction s as [|c s IH]; intros acc Hacc; cbn -[Z.pow].
  - intros [= <-]. lia.
  - destruct (hex_val c) as [d|] eqn:Hd; cbn; [|discriminate].
    apply hex_val_range in Hd. intros Hp. apply IH in Hp; [|lia].
    rewrite Nat2Z.inj_succ, Z.pow_succ_r by lia. nia.
Qed.

(** A UUID printed by [UUID.prototype.toString] is read back by
    [transit.UUIDfromString] into the same two halves. *)
Lemma uuid_to_from_string high low :
  0 <= high < 2 ^ 64 -> 0 <= low < 2 ^ 64 ->
  uuid_from_string (uuid_to_string high low) = Some (high, low).
Proof.
  intros Hh Hl. unfold uuid_from_string. cbv zeta. rewrite strip_uuid_to_string.
  rewrite !substring_prefix, !substring_rest by apply to_hex_length.
  rewrite !to_hex_length.
  change (2 ^ 64) with (16 ^ Z.of_nat 16) in Hh, Hl.
  cbn [Nat.eqb andb]. rewrite !parse_to_hex by lia. done.
Qed.

(** The halves [transit.UUIDfromString] reads are 64-bit unsigned
    integers, whatever the input. *)
Lemma uuid_from_string_range s high low :
  uuid_from_string s = Some (high, low) -> 0 <= high < 2 ^ 64 /\ 0 <= low < 2 ^ 64.
Proof.
  unfold uuid_from_string. cbv zeta.
  destruct (_ && _) eqn:Hlen; [|discriminate].
  apply andb_true_iff in Hlen as [H1 H2]. apply Nat.eqb_eq in H1, H2.
  destruct (parse_hex (substring 0 16 _) 0) as [h|] eqn:Hh; [|discriminate].
  cbn. destruct (parse_hex (substring 16 16 _) 0) as [l|] eqn:Hl; [|discriminate].
  cbn. intros [= <- <-].
  apply parse_hex_bounds in Hh, Hl; [|lia|lia]. rewrite H1 in Hh. rewrite H2 in Hl.
  change (16 ^ Z.of_nat 16) with (2 ^ 64) in *. lia.
Qed.

(** ** Theorems *)

(** The text form of a UUID with 64-bit halves is the canonical
    36-character form, and [transit.UUIDfromString] reads it back into the
    same two halves. *)
Theorem uuid_roundtrip high low :
  0 <= high < 2 ^ 64 -> 0 <= low < 2 ^ 64 ->
  String.length (uuid_to_string high low) = 36%nat /\
  uuid_from_string (uuid_to_string high low) = Some (high, low).
Proof.
  intros Hh Hl. split; [|by apply uuid_to_from_string].
  unfold uuid_to_string. rewrite !str_length_app, !to_hex_length. done.
Qed.

(** ** Witnesses *)

Lemma uuid_roundtrip_witness :
  (0 <= 81985529216486895 < 2 ^ 64) /\ (0 <= 1311768467463790320 < 2 ^ 64) /\
  String.length (uuid_to_string 81985529216486895 1311768467463790320) = 36%nat /\
  uuid_from_string (uuid_to_string 81985529216486895 1311768467463790320) =
    Some (81985529216486895, 1311768467463790320).
Proof.
  assert (Hh : 0 <= 81985529216486895 < 2 ^ 64) by lia.
  assert (Hl : 0 <= 1311768467463790320 < 2 ^ 64) by lia.
  split; [exact Hh|]. split; [exact Hl|]. exact (uuid_roundtrip _ _ Hh Hl).
Defined.
