(* ===== verification/Codec.v ===== *)
(** * The transit-json format: strings, markers and well-formed values

    The Tagged-Value Codec of the spec (4.1).  The program does not
    implement it: it calls transit-js's JSON reader and writer
    ([transitReader.read], index.ts 64 and 90; [transitWriter.write], 98).
    This file holds the string level of the format, modelled from the
    spec and the transit-json conventions the program's literals use
    (index.ts 44-60, 90):
    - scalars are strings with a two-character prefix: ["~:"] keyword,
      ["~$"] symbol, ["~u"] UUID, ["~m"] date in milliseconds, ["~i"]
      integer, ["~?"] boolean, ["~_"] null; a string that starts with
      ["~"], ["^"] or ["`"] is escaped by one more ["~"];
    - ["~#tag"] is the head of a tagged value, ["^ "] the head of a map;
      a string that is not cacheable and starts with ["^"] followed by
      anything but a space is a cache code ([Cache]); every other string
      that does not start with ["~"] is read as itself, as transit-js's
      [parseString] does;
    - the tag ["cmap"] is a map with keys that are not scalars, ["'"]
      quotes a top-level scalar; sets and the one-letter tags are not
      modelled; other tags give a generic tagged value.
    The arrays, maps and the caches are in [Cache] and [Marshal]. *)

From Stdlib Require Import ZArith String Ascii List Lia DecimalString DecimalZ.
From stdpp Require Import base list strings option.
From S2P Require Import Prelude Transit Uuid.

(** ** Decimal integers (the text after ["~i"] and ["~m"]) *)

Definition dec (z : Z) : string := NilZero.string_of_int (Z.to_int z).

Definition parse_dec (s : string) : option Z := option_map Z.of_int (NilZero.int_of_string s).

(** ** Markers *)

(** transit's [escape]: strings starting with a reserved character get one
    more ["~"]. *)
Definition escape (s : string) : string :=
  match s with
  | String c _ =>
      if Ascii.eqb c "~" || Ascii.eqb c "^" || Ascii.eqb c "`" then String "~" s else s
  | EmptyString => s
  end.

(** The tag of a ["~#tag"] string. *)
Definition tag_of (s : string) : option string :=
  match s with
  | String c0 (String c1 t) => if Ascii.eqb c0 "~" && Ascii.eqb c1 "#" then Some t else None
  | _ => None
  end.

(** Values whose transit tag is one letter: these may be map keys of a
    ["^ "] map, and are quoted at the top level. *)
Definition stringable (v : tval) : bool :=
  match v with
  | TNull | TBool _ | TInt _ | TStr _ | TKeyword _ | TSymbol _ | TUUID _ _ | TDate _ => true
  | TArray _ | TMap _ | TTagged _ _ => false
  end.

(** The tags the reader turns into a [TaggedValue]. *)
Definition plain_tag (t : string) : bool :=
  negb (String.eqb t "cmap") && negb (String.eqb t "'") && negb (String.eqb t "set") &&
  negb (String.length t =? 1)%nat.

(** ** One string *)

(** [parseString] on a string that is not a tag: an escaped string, a
    scalar, or a plain string. *)
Definition decode_string (s : string) : result tval :=
  match s with
  | String c0 rest =>
      if Ascii.eqb c0 "~" then
        match rest with
        | String c1 body =>
            if Ascii.eqb c1 "~" || Ascii.eqb c1 "^" || Ascii.eqb c1 "`" then Ok (TStr rest)
            else if Ascii.eqb c1 ":" then Ok (TKeyword body)
            else if Ascii.eqb c1 "$" then Ok (TSymbol body)
            else if Ascii.eqb c1 "u" then
              match uuid_from_string body with
              | Some (h, l) => Ok (TUUID h l)
              | None => Throw (Unmodelled "UUID text outside the canonical form")
              end
            else if Ascii.eqb c1 "m" then
              match parse_dec body with
              | Some ms => Ok (TDate ms)
              | None => Throw (Unmodelled "date that is not a decimal integer")
              end
            else if Ascii.eqb c1 "i" then
              match parse_dec body with
              | Some z => Ok (TInt z)
              | None => Throw (Unmodelled "integer that is not a decimal integer")
              end
            else if Ascii.eqb c1 "?" then Ok (TBool (String.eqb body "t"))
            else if Ascii.eqb c1 "_" then Ok TNull
            else if Ascii.eqb c1 "#" then Throw (MalformedEnvelope "tag outside a tagged value")
            else Throw (Unmodelled "scalar tag")
        | EmptyString => Throw (Unmodelled "lone escape character")
        end
      else Ok (TStr s)
  | EmptyString => Ok (TStr s)
  end.

(** What [parseString] returns, and what a read cache slot holds: a
    value, or a tag (the head of a tagged value). *)
Inductive centry := CVal (v : tval) | CTag (t : string).

Definition parse_entry (s : string) : result centry :=
  match tag_of s with
  | Some t => Ok (CTag t)
  | None => CVal <$> decode_string s
  end.

(** A tag where a value is expected. *)
Definition value_of (e : centry) : result tval :=
  match e with
  | CVal v => Ok v
  | CTag _ => Throw (MalformedEnvelope "tag outside a tagged value")
  end.

(** ** Well-formed values: those the reader can produce *)

Fixpoint wf (v : tval) : bool :=
  match v with
  | TUUID h l => (0 <=? h)%Z && (h <? 2 ^ 64)%Z && (0 <=? l)%Z && (l <? 2 ^ 64)%Z
  | TArray xs => forallb wf xs
  | TMap kvs => forallb (fun kv => wf kv.1 && wf kv.2) kvs
  | TTagged t r => plain_tag t && wf r
  | _ => true
  end.

Definition centry_wf (e : centry) : bool :=
  match e with CVal v => wf v | CTag _ => true end.

(** ** Lemmas *)

Lemma parse_dec_dec z : parse_dec (dec z) = Some z.
Proof.
  unfold parse_dec, dec. rewrite <- (DecimalZ.of_to z) at 2.
  destruct (Z.to_int z) as [u|u]; destruct u; try reflexivity;
    rewrite NilZero.isi by discriminate; reflexivity.
Qed.

Lemma escape_cases s :
  escape s = s /\ match s with String c _ => Ascii.eqb c "~" = false /\ Ascii.eqb c "^" = false
                                        | EmptyString => True end \/
  exists c r, s = String c r /\ escape s = String "~" s /\
    (Ascii.eqb c "~" || Ascii.eqb c "^" || Ascii.eqb c "`") = true.
Proof.
  destruct s as [|c r]; [by left|]. unfold escape.
  destruct (Ascii.eqb c "~" || Ascii.eqb c "^" || Ascii.eqb c "`") eqn:Hc.
  - right. by exists c, r.
  - left. apply orb_false_iff in Hc as [[H1 H2]%orb_false_iff _]. done.
Qed.

Lemma decode_string_escape s : decode_string (escape s) = Ok (TStr s).
Proof.
  destruct s as [|c r]; [done|]. unfold escape.
  destruct (Ascii.eqb c "~" || Ascii.eqb c "^" || Ascii.eqb c "`") eqn:Hc.
  - cbn. by rewrite Hc.
  - apply orb_false_iff in Hc as [[H1 H2]%orb_false_iff H3].
    cbn. by rewrite H1.
Qed.

Lemma tag_of_escape s : tag_of (escape s) = None.
Proof.
  destruct (escape_cases s) as [[-> Hs]|(c & r & -> & -> & Hc)].
  - destruct s as [|c [|c' r]]; try done. unfold tag_of. destruct Hs as [-> _]. done.
  - apply orb_true_iff in Hc as [[H|H]%orb_true_iff|H]; apply Ascii.eqb_eq in H as ->; done.
Qed.

Lemma parse_entry_escape s : parse_entry (escape s) = Ok (CVal (TStr s)).
Proof. unfold parse_entry. by rewrite tag_of_escape, decode_string_escape. Qed.

Lemma parse_entry_tag t : parse_entry ("~#" ++ t) = Ok (CTag t).
Proof. unfold parse_entry. by str_simpl. Qed.

Lemma wf_uuid h l : wf (TUUID h l) = true -> (0 <= h < 2 ^ 64 /\ 0 <= l < 2 ^ 64)%Z.
Proof. cbn. rewrite !andb_true_iff, !Z.leb_le, !Z.ltb_lt. lia. Qed.

Lemma plain_tag_spec t :
  plain_tag t = true ->
  String.eqb t "cmap" = false /\ String.eqb t "'" = false /\ String.eqb t "set" = false /\
  (String.length t =? 1)%nat = false.
Proof. unfold plain_tag. rewrite !andb_true_iff, !negb_true_iff. tauto. Qed.

Lemma decode_string_wf s v : decode_string s = Ok v -> wf v = true.
Proof.
  unfold decode_string. repeat case_match; intros; simplify_eq; try done.
  match goal with H : uuid_from_string _ = Some _ |- _ => apply uuid_from_string_range in H end.
  cbn. rewrite !andb_true_iff, !Z.leb_le, !Z.ltb_lt. lia.
Qed.

Lemma parse_entry_wf s e : parse_entry s = Ok e -> centry_wf e = true.
Proof.
  unfold parse_entry. destruct (tag_of s); [by intros [= <-]|].
  destruct (decode_string s) as [v|] eqn:Hd; intros [= <-]. by eapply decode_string_wf.
Qed.

Lemma decode_string_plain s : escape s = s -> decode_string s = Ok (TStr s).
Proof. intros H. pose proof (decode_string_escape s) as Hd. by rewrite H in Hd. Qed.
