(* ===== verification/Cache.v ===== *)
(** * The transit caches

    transit-json shortens repeated strings: the writer remembers every
    cacheable string it emits (longer than three characters, and either a
    map key or a keyword, symbol or tag) and writes a later occurrence as a
    cache code, ["^"] followed by one or two base-44 digits; the reader
    remembers what it parsed in the same order and replaces a code by the
    entry it names.  Both caches hold at most 44 * 44 entries: the writer
    starts afresh when full, the reader starts overwriting from slot 0.
    transit-js clears both after every [read] and [write], so each call
    of [transitReader.read] (index.ts 64, 90) and [transitWriter.write]
    (98) starts from an empty cache.  transit-js's writer also starts
    afresh once it has seen 4096 distinct cacheable strings in one write
    ([MAX_CACHE_SIZE]); that reset is not modelled, as the one write of
    the program (the cancel command) holds four.

    The reader runs in a state and error monad [RM] over its
    [ReadCache], the writer in a state monad [WM] over its [WriteCache]
    (a JavaScript object from strings to codes, here a [gmap]).  [mirror]
    relates a writer's cache to a reader's: the reader that has read what
    the writer wrote can expand every code the writer may emit next. *)

From Stdlib Require Import ZArith String Ascii List Lia.
From stdpp Require Import base list strings option gmap.
From S2P Require Import Prelude Transit Codec.

(** ** Cache codes *)

Definition CACHE_CODE_DIGITS : nat := 44.
Definition BASE_CHAR_IDX : nat := 48.
Definition MAX_CACHE_ENTRIES : nat := CACHE_CODE_DIGITS * CACHE_CODE_DIGITS.
Definition MIN_SIZE_CACHEABLE : nat := 3.

(** A keyword, symbol or tag: ["~:"], ["~$"] or ["~#"]. *)
Definition marker_prefix (s : string) : bool :=
  match s with
  | String c0 (String c1 _) =>
      Ascii.eqb c0 "~" && (Ascii.eqb c1 ":" || Ascii.eqb c1 "$" || Ascii.eqb c1 "#")
  | _ => false
  end.

Definition isCacheable (s : string) (asMapKey : bool) : bool :=
  (MIN_SIZE_CACHEABLE <? String.length s)%nat && (asMapKey || marker_prefix s).

Definition isCacheCode (s : string) : bool :=
  match s with
  | String c rest =>
      Ascii.eqb c "^" && match rest with String c1 _ => negb (Ascii.eqb c1 " ") | EmptyString => true end
  | EmptyString => false
  end.

Definition idxToCode (i : nat) : string :=
  let hi := i / CACHE_CODE_DIGITS in
  let lo := String (ascii_of_nat (i mod CACHE_CODE_DIGITS + BASE_CHAR_IDX)) EmptyString in
  if (hi =? 0)%nat then String "^" lo
  else String "^" (String (ascii_of_nat (hi + BASE_CHAR_IDX)) lo).

(** [codeToIdx]: [charCodeAt] arithmetic on the one or two digits; a code
    without digits names no slot. *)
Definition codeToIdx (s : string) : Z :=
  match s with
  | String _ (String c1 EmptyString) => Z.of_nat (nat_of_ascii c1) - Z.of_nat BASE_CHAR_IDX
  | String _ (String c1 (String c2 _)) =>
      (Z.of_nat (nat_of_ascii c1) - Z.of_nat BASE_CHAR_IDX) * Z.of_nat CACHE_CODE_DIGITS +
      (Z.of_nat (nat_of_ascii c2) - Z.of_nat BASE_CHAR_IDX)
  | _ => -1
  end%Z.

(** ** The read cache *)

Record ReadCache := mkReadCache { rc_idx : nat; rc_cache : gmap nat centry }.

Definition ReadCache_init : ReadCache := mkReadCache 0 ∅.

(** [ReadCache.write]: the next slot, from 0 again once all are used. *)
Definition rc_write (e : centry) (c : ReadCache) : ReadCache :=
  let i := if (rc_idx c =? MAX_CACHE_ENTRIES)%nat then 0%nat else rc_idx c in
  mkReadCache (S i) (<[i := e]> (rc_cache c)).

(** [ReadCache.read]: the slot a code names, if it was ever written. *)
Definition rc_read (s : string) (c : ReadCache) : option centry :=
  let z := codeToIdx s in
  if (0 <=? z)%Z then rc_cache c !! Z.to_nat z else None.

(** ** The write cache *)

Record WriteCache := mkWriteCache { wc_idx : nat; wc_cache : gmap string nat }.

Definition WriteCache_init : WriteCache := mkWriteCache 0 ∅.

(** [WriteCache.write]: a cacheable string seen before is replaced by its
    code; a full cache is cleared before the string is looked up. *)
Definition wc_write (s : string) (asMapKey : bool) (c : WriteCache) : string * WriteCache :=
  if isCacheable s asMapKey then
    let c := if (wc_idx c =? MAX_CACHE_ENTRIES)%nat then WriteCache_init else c in
    match wc_cache c !! s with
    | Some i => (idxToCode i, c)
    | None => (s, mkWriteCache (S (wc_idx c)) (<[s := wc_idx c]> (wc_cache c)))
    end
  else (s, c).

(** ** The reader's monad *)

Definition RM (A : Type) : Type := ReadCache -> result (A * ReadCache).

#[export] Instance RM_ret : MRet RM := fun A a c => Ok (a, c).
#[export] Instance RM_bind : MBind RM := fun A B f m c =>
  match m c with
  | Ok (a, c') => f a c'
  | Throw e => Throw e
  end.

Definition rlift {A} (r : result A) : RM A := fun c =>
  match r with
  | Ok a => Ok (a, c)
  | Throw e => Throw e
  end.

Fixpoint rmap {A B} (f : A -> RM B) (l : list A) : RM (list B) :=
  match l with
  | [] => mret []
  | x :: l' => y ← f x; ys ← rmap f l'; mret (y :: ys)
  end.

(** Keys and values of a map, in turn. *)
Fixpoint rpairs (fk fv : json -> RM tval) (xs : list json) : RM (list (tval * tval)) :=
  match xs with
  | [] => mret []
  | [_] => rlift (Throw (MalformedEnvelope "map with a key and no value"))
  | k :: v :: xs' => k' ← fk k; v' ← fv v; kvs ← rpairs fk fv xs'; mret ((k', v') :: kvs)
  end.

(** [decodeString]: a cacheable string is parsed and remembered, a cache
    code is replaced by the entry it names, any other string is parsed. *)
Definition decodeString (s : string) (asMapKey : bool) : RM centry := fun c =>
  if isCacheable s asMapKey then
    match parse_entry s with
    | Ok e => Ok (e, rc_write e c)
    | Throw err => Throw err
    end
  else if isCacheCode s then
    match rc_read s c with
    | Some e => Ok (e, c)
    | None => Throw (Unmodelled "cache code of an empty slot")
    end
  else
    match parse_entry s with
    | Ok e => Ok (e, c)
    | Throw err => Throw err
    end.

(** ** The writer's monad *)

Definition WM (A : Type) : Type := WriteCache -> A * WriteCache.

#[export] Instance WM_ret : MRet WM := fun A a c => (a, c).
#[export] Instance WM_bind : MBind WM := fun A B f m c => let '(a, c') := m c in f a c'.

Fixpoint wmap {A B} (f : A -> WM B) (l : list A) : WM (list B) :=
  match l with
  | [] => mret []
  | x :: l' => y ← f x; ys ← wmap f l'; mret (y :: ys)
  end.

Fixpoint wpairs (fk fv : tval -> WM json) (kvs : list (tval * tval)) : WM (list json) :=
  match kvs with
  | [] => mret []
  | kv :: kvs' => jk ← fk kv.1; jv ← fv kv.2; js ← wpairs fk fv kvs'; mret (jk :: jv :: js)
  end.

(** [emitString] through the cache. *)
Definition emitString (s : string) (asMapKey : bool) : WM json := fun c =>
  let '(s', c') := wc_write s asMapKey c in (JStr s', c').

(** ** The mirror invariant *)

Definition mirror (w : WriteCache) (r : ReadCache) : Prop :=
  wc_idx w = rc_idx r /\ (wc_idx w <= MAX_CACHE_ENTRIES)%nat /\
  forall s i, wc_cache w !! s = Some i ->
    (i < wc_idx w)%nat /\ exists e, parse_entry s = Ok e /\ rc_cache r !! i = Some e.

(** The read cache holds well-formed entries only. *)
Definition rc_wf (r : ReadCache) : Prop := map_Forall (fun _ e => centry_wf e = true) (rc_cache r).

(** ** Lemmas *)

(** Every slot's code is a cache code of at most three characters that
    names that slot again: checked on all [MAX_CACHE_ENTRIES] slots. *)
Lemma codes_ok :
  forallb (fun i => (String.length (idxToCode i) <=? 3)%nat && isCacheCode (idxToCode i) &&
                    (codeToIdx (idxToCode i) =? Z.of_nat i)%Z)
          (seq 0 MAX_CACHE_ENTRIES) = true.
Proof. vm_compute. reflexivity. Qed.

Lemma idxToCode_spec i k :
  (i < MAX_CACHE_ENTRIES)%nat ->
  isCacheable (idxToCode i) k = false /\ isCacheCode (idxToCode i) = true /\
  codeToIdx (idxToCode i) = Z.of_nat i.
Proof.
  intros Hi. pose proof codes_ok as H. rewrite forallb_forall in H.
  specialize (H i (proj2 (in_seq _ _ _) (conj (Nat.le_0_l i) Hi))).
  rewrite !andb_true_iff, Nat.leb_le, Z.eqb_eq in H. destruct H as [[Hl Hc] Hz].
  unfold isCacheable. rewrite (proj2 (Nat.ltb_ge _ _)) by (unfold MIN_SIZE_CACHEABLE; lia). done.
Qed.

Lemma rbind_step {A B} (m : RM A) (f : A -> RM B) c a c1 :
  m c = Ok (a, c1) -> (x ← m; f x) c = f a c1.
Proof. intros H. unfold mbind, RM_bind. by rewrite H. Qed.

Lemma rbind_Ok {A B} (m : RM A) (f : A -> RM B) c b c2 :
  (x ← m; f x) c = Ok (b, c2) <-> exists a c1, m c = Ok (a, c1) /\ f a c1 = Ok (b, c2).
Proof.
  unfold mbind, RM_bind. split.
  - destruct (m c) as [[a c1]|e]; [|discriminate]. eauto.
  - intros (a & c1 & -> & H). exact H.
Qed.

Lemma rlift_Ok {A} (r : result A) c a c1 : rlift r c = Ok (a, c1) <-> r = Ok a /\ c1 = c.
Proof.
  destruct r as [a'|e]; cbn; split; intros H;
    [injection H as -> ->|destruct H as [[= ->] ->]|discriminate|destruct H as [[=] _]]; done.
Qed.

Lemma mirror_init : mirror WriteCache_init ReadCache_init.
Proof.
  split; [done|]. split; [cbn; unfold MAX_CACHE_ENTRIES; lia|].
  intros s i. cbn. by rewrite lookup_empty.
Qed.

(** What the writer emits for a string, the reader reads back as the
    string's entry, and the caches stay mirrored. *)
Lemma decodeString_emit s k e w r :
  mirror w r -> parse_entry s = Ok e -> isCacheCode s = false ->
  exists r', decodeString (wc_write s k w).1 k r = Ok (e, r') /\ mirror (wc_write s k w).2 r'.
Proof.
  intros Hmir He Hcode. pose proof Hmir as (Hidx & Hle & Hm). unfold wc_write, decodeString.
  destruct (isCacheable s k) eqn:Hc; cbn -[isCacheable MAX_CACHE_ENTRIES]; [|rewrite Hc, Hcode, He; exists r; split; [done|exact Hmir]].
  destruct (wc_idx w =? MAX_CACHE_ENTRIES)%nat eqn:Hmax.
  - (* the writer starts afresh; the reader overwrites slot 0 *)
    cbn -[isCacheable MAX_CACHE_ENTRIES]. rewrite lookup_empty. cbn -[isCacheable MAX_CACHE_ENTRIES]. rewrite ?Hc, He. eexists. split; [done|].
    unfold rc_write. rewrite <- Hidx, Hmax. split; [done|]. split; [cbn; unfold MAX_CACHE_ENTRIES; lia|].
    intros s' i. cbn. destruct (decide (s' = s)) as [->|Hne].
    + rewrite lookup_insert_eq. intros [= <-]. split; [lia|]. exists e. by rewrite lookup_insert_eq.
    + by rewrite lookup_insert_ne, lookup_empty.
  - destruct (wc_cache w !! s) as [i|] eqn:Hs.
    + (* a code: the reader finds the entry it parsed *)
      destruct (Hm s i Hs) as [Hi (e' & He' & Hr)]. rewrite He in He'. injection He' as <-.
      apply Nat.eqb_neq in Hmax.
      destruct (idxToCode_spec i k) as (Hc' & Hcode' & Hz); [lia|].
      cbn -[isCacheable MAX_CACHE_ENTRIES]. rewrite Hc', Hcode'. unfold rc_read. rewrite Hz.
      rewrite (proj2 (Z.leb_le _ _)) by lia. rewrite Nat2Z.id, Hr. eexists. split; [done|].
      split; [done|]. split; [done|]. exact Hm.
    + (* a new string: both put it in the next slot *)
      cbn -[isCacheable MAX_CACHE_ENTRIES]. rewrite ?Hc, He. eexists. split; [done|].
      unfold rc_write. rewrite <- Hidx, Hmax. apply Nat.eqb_neq in Hmax.
      split; [done|]. split; [cbn -[MAX_CACHE_ENTRIES]; lia|]. intros s' j. cbn. destruct (decide (s' = s)) as [->|Hne].
      * rewrite lookup_insert_eq. intros [= <-]. split; [lia|]. exists e. by rewrite lookup_insert_eq.
      * rewrite lookup_insert_ne by done. intros Hj. destruct (Hm s' j Hj) as [Hj' (e' & He' & Hr')].
        split; [lia|]. exists e'. split; [done|]. rewrite lookup_insert_ne by lia. done.
Qed.

Lemma rc_wf_init : rc_wf ReadCache_init.
Proof. apply map_Forall_empty. Qed.

Lemma decodeString_wf s k r e r' :
  rc_wf r -> decodeString s k r = Ok (e, r') -> centry_wf e = true /\ rc_wf r'.
Proof.
  intros Hr. unfold decodeString.
  destruct (isCacheable s k); [|destruct (isCacheCode s)].
  - destruct (parse_entry s) as [e0|] eqn:He; intros; simplify_eq.
    apply parse_entry_wf in He. split; [done|]. by apply map_Forall_insert_2.
  - unfold rc_read. destruct (0 <=? _)%Z; [|done].
    destruct (rc_cache r !! _) as [e0|] eqn:He; intros; simplify_eq.
    split; [exact (Hr _ _ He)|done].
  - destruct (parse_entry s) as [e0|] eqn:He; intros; simplify_eq.
    apply parse_entry_wf in He. done.
Qed.
