(* ===== verification/Marshal.v ===== *)
(** * transit-js's JSON reader and writer

    [transitReader.read] (index.ts 64, 90) and [transitWriter.write] (98)
    on parsed JSON, with the caches of [Cache]:
    - the reader [decode] runs in the monad [RM]: an array whose first
      element is ["^ "] is a map whose keys are read as map keys; a
      two-element array whose first element reads as a tag is a tagged
      value (["cmap"]: a map with structured keys, ["'"]: a quoted
      scalar); any other array is an array, read from the cache as it was
      before its first element was tried as a tag (transit-js rewinds the
      cache there);
    - the writer [marshal] runs in the monad [WM]: maps whose keys are all
      scalars are written as ["^ "] arrays, other maps as ["~#cmap"]
      tagged values, tagged values as two-element arrays; [marshalTop]
      quotes a top-level scalar.
    The reader follows the transit format where transit-js's own reader
    differs on values no transit writer produces: it looks for a tag at
    the head of the representation of every tagged value.

    [write_read] is the round trip of the two with their caches,
    [read_wf] the invariant of the reader; the [Codec] interface states
    what a codec promises its clients, and [transit_codec_laws] proves it
    of transit. *)

From Stdlib Require Import ZArith String Ascii List Lia.
From stdpp Require Import base list strings option gmap.
From S2P Require Import Prelude Transit Uuid Codec Cache.

(** ** The reader *)

(** The [cmap] handler: keys and values in turn. *)
Fixpoint pair_up (vs : list tval) : result (list (tval * tval)) :=
  match vs with
  | [] => Ok []
  | [_] => Throw (MalformedEnvelope "cmap with a key and no value")
  | k :: v :: vs' => kvs ← pair_up vs'; Ok ((k, v) :: kvs)
  end.

(** A tagged value once its representation is read. *)
Definition tagged_of (t : string) (v : tval) : result tval :=
  if String.eqb t "cmap" then
    match v with
    | TArray vs => TMap <$> pair_up vs
    | _ => Throw (MalformedEnvelope "cmap without an array")
    end
  else if String.eqb t "'" then Ok v
  else if String.eqb t "set" then Throw (Unmodelled "set")
  else if (String.length t =? 1)%nat then Throw (Unmodelled "one-letter tag")
  else Ok (TTagged t v).

(** [Decoder.decode(node, cache, asMapKey)]. *)
Fixpoint decode (asMapKey : bool) (j : json) : RM tval :=
  match j with
  | JNull => mret TNull
  | JBool b => mret (TBool b)
  | JNum z => mret (TInt z)
  | JStr s => e ← decodeString s asMapKey; rlift (value_of e)
  | JObj _ => rlift (Throw (Unmodelled "verbose-mode map"))
  | JArr xs =>
      let as_array := (vs ← rmap (decode asMapKey) xs; mret (TArray vs)) in
      match xs with
      | JStr m :: rest =>
          if String.eqb m "^ " then
            kvs ← rpairs (decode true) (decode false) rest; mret (TMap kvs)
          else
            match rest with
            | [rep] => fun c =>
                match decodeString m false c with
                | Ok (CTag t, c1) => (v ← decode asMapKey rep; rlift (tagged_of t v)) c1
                | Ok (CVal _, _) => as_array c
                | Throw e => Throw e
                end
            | _ => as_array
            end
      | _ => as_array
      end
  end.

(** [transitReader.read] on the parsed JSON, from an empty cache. *)
Definition read (j : json) : result tval := fst <$> decode false j ReadCache_init.

(** ** The writer *)

(** [marshal(em, v, asMapKey, cache)]. *)
Fixpoint marshal (asMapKey : bool) (v : tval) : WM json :=
  match v with
  | TNull => if asMapKey then emitString "~_" true else mret JNull
  | TBool b => if asMapKey then emitString (if b then "~?t" else "~?f") true else mret (JBool b)
  | TInt z => if asMapKey then emitString ("~i" ++ dec z) true else mret (JNum z)
  | TStr s => emitString (escape s) asMapKey
  | TKeyword n => emitString ("~:" ++ n) asMapKey
  | TSymbol n => emitString ("~$" ++ n) asMapKey
  | TUUID h l => emitString ("~u" ++ uuid_to_string h l) asMapKey
  | TDate ms => emitString ("~m" ++ dec ms) asMapKey
  | TArray xs => js ← wmap (marshal false) xs; mret (JArr js)
  | TMap kvs =>
      if forallb (fun kv => stringable kv.1) kvs
      then js ← wpairs (marshal true) (marshal false) kvs; mret (JArr (JStr "^ " :: js))
      else jt ← emitString "~#cmap" false; js ← wpairs (marshal false) (marshal false) kvs;
           mret (JArr [jt; JArr js])
  | TTagged t r => jt ← emitString ("~#" ++ t) false; jr ← marshal false r; mret (JArr [jt; jr])
  end%string.

(** [marshalTop]: a scalar at the top is quoted. *)
Definition marshalTop (v : tval) : WM json :=
  if stringable v then (jt ← emitString "~#'" false; j ← marshal false v; mret (JArr [jt; j]))
  else marshal false v.

(** [transitWriter.write], from an empty cache. *)
Definition write (v : tval) : json := (marshalTop v WriteCache_init).1.

(** ** The codec interface *)

(** What a codec promises its clients: decoding an encoded valid value
    gives it back, and every decoded value is valid. *)
Class Codec (V W : Type) := {
  codec_encode : V -> W;
  codec_decode : W -> result V;
  codec_valid : V -> bool
}.

Class CodecLaws (V W : Type) `{!Codec V W} := {
  codec_roundtrip : forall v, codec_valid v = true -> codec_decode (codec_encode v) = Ok v;
  codec_decode_valid : forall w v, codec_decode w = Ok v -> codec_valid v = true
}.

#[export] Instance transit_codec : Codec tval json := {|
  codec_encode := write;
  codec_decode := read;
  codec_valid := wf
|}.

(** ** Equations of the reader and the writer *)

(** A string whose first character is not ["^"]: neither a map marker
    nor a cache code. *)
Definition not_caret (s : string) : Prop :=
  match s with String c _ => c <> "^"%char | EmptyString => True end.

(** Writing [x] with [f] and reading it back with [g] gives [x] again,
    from any pair of mirrored caches to a pair of mirrored caches. *)
Definition RT (f : tval -> WM json) (g : json -> RM tval) (x : tval) : Prop :=
  forall w r, mirror w r -> exists r', g (f x w).1 r = Ok (x, r') /\ mirror (f x w).2 r'.

Lemma not_caret_code s : not_caret s -> isCacheCode s = false /\ String.eqb s "^ " = false.
Proof.
  destruct s as [|c s]; [done|]. cbn. intros Hc. split.
  - by rewrite (proj2 (Ascii.eqb_neq c "^") Hc).
  - destruct (Ascii.eqb_spec c "^"); [done|]. by destruct (ascii_dec c "^").
Qed.

Lemma not_caret_escape s : not_caret (escape s).
Proof.
  destruct (escape_cases s) as [[-> Hs]|(c & r & -> & -> & _)]; [|done].
  destruct s as [|c r]; [done|]. cbn. destruct Hs as [_ H]. intros ->. done.
Qed.

Lemma wmap_cons {A B} (f : A -> WM B) x l w :
  wmap f (x :: l) w = ((f x w).1 :: (wmap f l (f x w).2).1, (wmap f l (f x w).2).2).
Proof.
  cbn. unfold mbind, WM_bind, mret, WM_ret. destruct (f x w) as [y w1]. cbn.
  by destruct (wmap f l w1).
Qed.

Lemma wpairs_cons fk fv kv kvs w :
  wpairs fk fv (kv :: kvs) w =
    let w1 := (fk kv.1 w).2 in let w2 := (fv kv.2 w1).2 in
    ((fk kv.1 w).1 :: (fv kv.2 w1).1 :: (wpairs fk fv kvs w2).1, (wpairs fk fv kvs w2).2).
Proof.
  cbn. unfold mbind, WM_bind, mret, WM_ret. destruct (fk kv.1 w) as [jk w1]. cbn.
  destruct (fv kv.2 w1) as [jv w2]. cbn. by destruct (wpairs fk fv kvs w2).
Qed.

Lemma emitString_eq s k w :
  emitString s k w = (JStr (wc_write s k w).1, (wc_write s k w).2).
Proof. unfold emitString. by destruct (wc_write s k w). Qed.

Lemma marshal_TArray k xs w :
  marshal k (TArray xs) w = (JArr (wmap (marshal false) xs w).1, (wmap (marshal false) xs w).2).
Proof. cbn [marshal]. unfold mbind, WM_bind, mret, WM_ret. by destruct (wmap _ xs w). Qed.

Lemma marshal_TMap k kvs w :
  marshal k (TMap kvs) w =
    if forallb (fun kv => stringable kv.1) kvs then
      (JArr (JStr "^ " :: (wpairs (marshal true) (marshal false) kvs w).1),
       (wpairs (marshal true) (marshal false) kvs w).2)
    else
      let w1 := (wc_write "~#cmap" false w).2 in
      (JArr [JStr (wc_write "~#cmap" false w).1; JArr (wpairs (marshal false) (marshal false) kvs w1).1],
       (wpairs (marshal false) (marshal false) kvs w1).2).
Proof.
  cbn [marshal]. destruct (forallb _ kvs); unfold mbind, WM_bind, mret, WM_ret.
  - by destruct (wpairs _ _ kvs w).
  - rewrite emitString_eq. cbn. by destruct (wpairs _ _ kvs _).
Qed.

Lemma marshal_TTagged k t r w :
  marshal k (TTagged t r) w =
    let w1 := (wc_write ("~#" ++ t) false w).2 in
    (JArr [JStr (wc_write ("~#" ++ t) false w).1; (marshal false r w1).1], (marshal false r w1).2).
Proof.
  cbn [marshal]. unfold mbind, WM_bind, mret, WM_ret. rewrite emitString_eq. cbn.
  by destruct (marshal false r _).
Qed.

Lemma decode_JStr_Ok k m r v r' :
  decode k (JStr m) r = Ok (v, r') -> decodeString m k r = Ok (CVal v, r').
Proof.
  cbn [decode]. intros (e & c1 & He & Hv)%rbind_Ok. apply rlift_Ok in Hv as [Hv ->].
  destruct e; simplify_eq/=. done.
Qed.

Lemma decode_JArr_map k js r :
  decode k (JArr (JStr "^ " :: js)) r = (kvs ← rpairs (decode true) (decode false) js; mret (TMap kvs)) r.
Proof. reflexivity. Qed.

Lemma decode_JArr_tag k m rep r :
  String.eqb m "^ " = false ->
  decode k (JArr [JStr m; rep]) r =
    match decodeString m false r with
    | Ok (CTag t, c1) => (v ← decode k rep; rlift (tagged_of t v)) c1
    | Ok (CVal _, _) => (vs ← rmap (decode k) [JStr m; rep]; mret (TArray vs)) r
    | Throw e => Throw e
    end.
Proof. intros Hm. cbn [decode]. by rewrite Hm. Qed.

(** An array whose head is not a map marker nor a tag is read as an
    array. *)
Lemma decode_JArr_array k js r :
  (forall m rest, js = JStr m :: rest ->
     String.eqb m "^ " = false /\ exists v c, decodeString m false r = Ok (CVal v, c)) ->
  decode k (JArr js) r = (vs ← rmap (decode k) js; mret (TArray vs)) r.
Proof.
  intros Hhead. destruct js as [|j rest]; [reflexivity|]. destruct j; try reflexivity.
  destruct (Hhead s rest eq_refl) as [Hm (v & c & Hd)]. cbn [decode]. rewrite Hm.
  destruct rest as [|rep [|r2 rest']]; try reflexivity. by rewrite Hd.
Qed.

(** ** The round trip *)

(** The string the writer emits for a string [s] is never a map marker. *)
Lemma wc_write_head s k w r :
  mirror w r -> not_caret s -> String.eqb (wc_write s k w).1 "^ " = false.
Proof.
  intros (Hidx & Hle & Hm) Hs. destruct (not_caret_code s Hs) as [_ Hs'].
  unfold wc_write. destruct (isCacheable s k); [|done].
  destruct (wc_idx w =? MAX_CACHE_ENTRIES)%nat eqn:Hmax.
  - cbn. by rewrite lookup_empty.
  - destruct (wc_cache w !! s) as [i|] eqn:Hi; [|done]. cbn.
    destruct (Hm s i Hi) as [Hlt _]. apply Nat.eqb_neq in Hmax.
    destruct (idxToCode_spec i false) as (_ & Hc & _); [lia|].
    destruct (String.eqb_spec (idxToCode i) "^ ") as [E|]; [|done]. by rewrite E in Hc.
Qed.

(** A string the writer emits for a scalar reads back as that scalar. *)
Lemma emit_decode s k v : parse_entry s = Ok (CVal v) -> not_caret s ->
  RT (fun _ => emitString s k) (decode k) v.
Proof.
  intros He Hs w r Hmir. destruct (not_caret_code s Hs) as [Hcode _].
  destruct (decodeString_emit s k (CVal v) w r Hmir He Hcode) as (r' & Hd & Hm').
  rewrite emitString_eq. exists r'. split; [|done].
  cbn [fst decode]. by rewrite (rbind_step _ _ _ _ _ Hd).
Qed.

Lemma rmap_cons_Ok {A B} (g : A -> RM B) x l r y ys r1 r2 :
  g x r = Ok (y, r1) -> rmap g l r1 = Ok (ys, r2) -> rmap g (x :: l) r = Ok (y :: ys, r2).
Proof.
  intros H1 H2. cbn [rmap]. rewrite (rbind_step _ _ _ _ _ H1). cbv beta.
  by rewrite (rbind_step _ _ _ _ _ H2).
Qed.

Lemma rpairs_cons_Ok gk gv a b l r k v kvs r1 r2 r3 :
  gk a r = Ok (k, r1) -> gv b r1 = Ok (v, r2) -> rpairs gk gv l r2 = Ok (kvs, r3) ->
  rpairs gk gv (a :: b :: l) r = Ok ((k, v) :: kvs, r3).
Proof.
  intros H1 H2 H3. cbn [rpairs]. rewrite (rbind_step _ _ _ _ _ H1). cbv beta.
  rewrite (rbind_step _ _ _ _ _ H2). cbv beta. by rewrite (rbind_step _ _ _ _ _ H3).
Qed.

Lemma wmap_rmap f g xs : Forall (RT f g) xs ->
  forall w r, mirror w r -> exists r', rmap g (wmap f xs w).1 r = Ok (xs, r') /\ mirror (wmap f xs w).2 r'.
Proof.
  induction 1 as [|x l Hx _ IH]; intros w r Hm; [by exists r|].
  rewrite wmap_cons. cbn [fst snd].
  destruct (Hx w r Hm) as (r1 & H1 & Hm1). destruct (IH _ _ Hm1) as (r2 & H2 & Hm2).
  exists r2. split; [|done]. by eapply rmap_cons_Ok.
Qed.

Lemma wpairs_rpairs fk fv gk gv kvs : Forall (fun kv => RT fk gk kv.1 /\ RT fv gv kv.2) kvs ->
  forall w r, mirror w r ->
  exists r', rpairs gk gv (wpairs fk fv kvs w).1 r = Ok (kvs, r') /\ mirror (wpairs fk fv kvs w).2 r'.
Proof.
  induction 1 as [|[k v] l [Hk Hv] _ IH]; intros w r Hm; [by exists r|].
  cbn [fst snd] in Hk, Hv. rewrite wpairs_cons. cbn [fst snd].
  destruct (Hk w r Hm) as (r1 & H1 & Hm1). destruct (Hv _ _ Hm1) as (r2 & H2 & Hm2).
  destruct (IH _ _ Hm2) as (r3 & H3 & Hm3). exists r3. split; [|done]. by eapply rpairs_cons_Ok.
Qed.

Definition flat (kvs : list (tval * tval)) : list tval := flat_map (fun kv => [kv.1; kv.2]) kvs.

Lemma wpairs_rmap fk fv g kvs : Forall (fun kv => RT fk g kv.1 /\ RT fv g kv.2) kvs ->
  forall w r, mirror w r ->
  exists r', rmap g (wpairs fk fv kvs w).1 r = Ok (flat kvs, r') /\ mirror (wpairs fk fv kvs w).2 r'.
Proof.
  induction 1 as [|[k v] l [Hk Hv] _ IH]; intros w r Hm; [by exists r|].
  cbn [fst snd] in Hk, Hv. rewrite wpairs_cons. cbn [fst snd].
  destruct (Hk w r Hm) as (r1 & H1 & Hm1). destruct (Hv _ _ Hm1) as (r2 & H2 & Hm2).
  destruct (IH _ _ Hm2) as (r3 & H3 & Hm3). exists r3. split; [|done].
  eapply rmap_cons_Ok; [exact H1|]. by eapply rmap_cons_Ok.
Qed.

Lemma pair_up_flat kvs : pair_up (flat kvs) = Ok kvs.
Proof. induction kvs as [|[k v] kvs IH]; [done|]. cbn [flat flat_map app pair_up]. fold (flat kvs). by rewrite IH. Qed.

(** What the writer emits for a value in value position never looks like
    a map marker or a tag to the reader. *)
Lemma marshal_head x w r m :
  mirror w r -> RT (marshal false) (decode false) x -> (marshal false x w).1 = JStr m ->
  String.eqb m "^ " = false /\ exists c, decodeString m false r = Ok (CVal x, c).
Proof.
  intros Hmir Hrt Hx. split.
  - destruct x;
      try (rewrite marshal_TArray in Hx; discriminate);
      try (rewrite marshal_TMap in Hx; destruct (forallb _ _); discriminate);
      try (rewrite marshal_TTagged in Hx; discriminate);
      cbn [marshal] in Hx; rewrite ?emitString_eq in Hx; unfold mret, WM_ret in Hx; cbn [fst] in Hx;
      try discriminate; injection Hx as <-; try (eapply wc_write_head; [exact Hmir|]);
      first [apply not_caret_escape | str_simpl; cbn; (discriminate || reflexivity)].
  - destruct (Hrt w r Hmir) as (r' & Hd & _). rewrite Hx in Hd. exists r'. by apply decode_JStr_Ok.
Qed.

(** The head of an array the writer emitted from mirrored caches reads as
    a value, so the reader takes the array for an array. *)
Lemma decode_written_array xs js k w r ys r' :
  mirror w r -> Forall (RT (marshal false) (decode false)) xs ->
  (forall m rest, js = JStr m :: rest -> exists x, head xs = Some x /\ (marshal false x w).1 = JStr m) ->
  rmap (decode k) js r = Ok (ys, r') -> decode k (JArr js) r = Ok (TArray ys, r').
Proof.
  intros Hm Hall Hhead Hd. rewrite decode_JArr_array.
  - by rewrite (rbind_step _ _ _ _ _ Hd).
  - intros m rest Hjs. destruct (Hhead m rest Hjs) as (x & Hx & Hxm).
    destruct xs as [|x' xs']; [discriminate|]. injection Hx as ->.
    destruct (marshal_head x w r m Hm (Forall_inv Hall) Hxm) as [Hm' (c & Hc)]. eauto.
Qed.

Ltac emit_scalar s :=
  intros w r Hm; refine (emit_decode s _ _ _ _ w r Hm);
  [unfold parse_entry; str_simpl; cbn; rewrite ?parse_dec_dec; try reflexivity
  |str_simpl; cbn; discriminate].

(** Reading what [marshal] wrote gives the value back, in key position as
    well as in value position, from any mirrored caches. *)
Lemma marshal_decode v : wf v = true -> forall k, (k = true -> stringable v = true) ->
  RT (marshal k) (decode k) v.
Proof.
  induction v using tval_ind'; intros Hwf k Hk.
  - destruct k; [emit_scalar "~_"|]. intros w r Hm. by exists r.
  - destruct k; [|intros w r Hm; by exists r].
    destruct b; [emit_scalar "~?t"|emit_scalar "~?f"].
  - destruct k; [emit_scalar ("~i" ++ dec z)%string|]. intros w r Hm. by exists r.
  - intros w r Hm. exact (emit_decode _ k _ (parse_entry_escape s) (not_caret_escape s) w r Hm).
  - emit_scalar ("~:" ++ s)%string.
  - emit_scalar ("~$" ++ s)%string.
  - apply wf_uuid in Hwf as [Hh Hl]. emit_scalar ("~u" ++ uuid_to_string h l)%string.
    cbn -[uuid_from_string]. by rewrite uuid_to_from_string.
  - emit_scalar ("~m" ++ dec ms)%string.
  - destruct k; [by discriminate Hk|]. cbn [wf] in Hwf. rewrite forallb_forall in Hwf.
    assert (Hall : Forall (RT (marshal false) (decode false)) xs).
    { rewrite List.Forall_forall in H |- *. intros x Hx. apply H; [done|apply Hwf, Hx|done]. }
    intros w r Hm. rewrite marshal_TArray. cbn [fst snd].
    destruct (wmap_rmap _ _ _ Hall w r Hm) as (r' & Hd & Hm'). exists r'. split; [|done].
    eapply decode_written_array; [exact Hm|exact Hall| |exact Hd].
    intros m rest Hjs. destruct xs as [|x xs']; [discriminate|].
    rewrite wmap_cons in Hjs. injection Hjs as Hx _. by exists x.
  - destruct k; [by discriminate Hk|]. cbn [wf] in Hwf. rewrite forallb_forall in Hwf.
    assert (Hp : forall kv, In kv kvs -> (forall b, (b = true -> stringable kv.1 = true) ->
                   RT (marshal b) (decode b) kv.1) /\ RT (marshal false) (decode false) kv.2).
    { intros kv Hkv. rewrite List.Forall_forall in H. destruct (H kv Hkv) as [H1 H2].
      apply Hwf, andb_true_iff in Hkv as [Hk1 Hk2]. split; [intros b; by apply H1|by apply H2]. }
    intros w r Hm. rewrite marshal_TMap. destruct (forallb _ kvs) eqn:Hs; cbn [fst snd].
    + (* a ["^ "] map *)
      rewrite forallb_forall in Hs.
      destruct (wpairs_rpairs (marshal true) (marshal false) (decode true) (decode false) kvs)
        with (w := w) (r := r) as (r' & Hd & Hm'); [|exact Hm|].
      { apply List.Forall_forall. intros kv Hkv. destruct (Hp kv Hkv) as [H1 H2].
        split; [apply H1; intros _; by apply Hs|exact H2]. }
      exists r'. split; [|done]. by rewrite decode_JArr_map, (rbind_step _ _ _ _ _ Hd).
    + (* a ["~#cmap"] tagged value *)
      destruct (decodeString_emit "~#cmap" false (CTag "cmap") w r Hm eq_refl eq_refl)
        as (r1 & Hd1 & Hm1).
      assert (Hpf : Forall (fun kv => RT (marshal false) (decode false) kv.1 /\
                                      RT (marshal false) (decode false) kv.2) kvs).
      { apply List.Forall_forall. intros kv Hkv. destruct (Hp kv Hkv) as [H1 H2].
        split; [apply H1; discriminate|exact H2]. }
      destruct (wpairs_rmap _ _ _ kvs Hpf _ r1 Hm1) as (r2 & Hd2 & Hm2).
      exists r2. split; [|done].
      rewrite decode_JArr_tag by (eapply wc_write_head; [exact Hm|]; cbn; discriminate).
      assert (Hd3 : decode false (JArr (wpairs (marshal false) (marshal false) kvs
                                          (wc_write "~#cmap" false w).2).1) r1 =
                    Ok (TArray (flat kvs), r2)).
      { eapply (decode_written_array (flat kvs)); [exact Hm1| | |exact Hd2].
        - clear -Hpf. induction Hpf as [|kv kvs' [Ha Hb] _ IH]; [constructor|]. by repeat constructor.
        - intros m rest Hjs. destruct kvs as [|[a b] kvs']; [discriminate|].
          rewrite wpairs_cons in Hjs. injection Hjs as Hx _. by exists a. }
      rewrite Hd1, (rbind_step _ _ _ _ _ Hd3). cbn -[flat pair_up]. by rewrite pair_up_flat.
  - destruct k; [by discriminate Hk|]. cbn [wf] in Hwf. apply andb_true_iff in Hwf as [Ht Hr].
    intros w r Hm. rewrite marshal_TTagged. cbv zeta. cbn [fst snd].
    assert (Hc : isCacheCode ("~#" ++ t) = false) by (str_simpl; reflexivity).
    destruct (decodeString_emit ("~#" ++ t) false (CTag t) w r Hm (parse_entry_tag t) Hc)
      as (r1 & Hd1 & Hm1).
    destruct (IHv Hr false (fun H => ltac:(discriminate H)) _ _ Hm1) as (r2 & Hd2 & Hm2).
    exists r2. split; [|done].
    rewrite decode_JArr_tag by (eapply wc_write_head; [exact Hm|]; str_simpl; cbn; discriminate).
    rewrite Hd1, (rbind_step _ _ _ _ _ Hd2).
    destruct (plain_tag_spec t Ht) as (H1 & H2 & H3 & H4).
    unfold tagged_of. by rewrite H1, H2, H3, H4.
Qed.

(** ** Single steps of the caches *)

Lemma wc_write_skip s k w : isCacheable s k = false -> wc_write s k w = (s, w).
Proof. intros H. unfold wc_write. by rewrite H. Qed.

Lemma wc_write_fresh s k w :
  isCacheable s k = true -> (wc_idx w =? MAX_CACHE_ENTRIES)%nat = false -> wc_cache w !! s = None ->
  wc_write s k w = (s, mkWriteCache (S (wc_idx w)) (<[s := wc_idx w]> (wc_cache w))).
Proof. intros H1 H2 H3. unfold wc_write. rewrite H1, H2. cbv zeta. by rewrite H3. Qed.

(** Strings in value position that are never cached. *)
Lemma isCacheable_uuid x : isCacheable ("~u" ++ x) false = false.
Proof. unfold isCacheable. str_simpl. cbn. apply andb_false_r. Qed.

Lemma marker_prefix_escape s : marker_prefix (escape s) = false.
Proof.
  destruct (escape_cases s) as [[-> Hs]|(c & r & -> & -> & Hc)].
  - destruct s as [|c [|c' r]]; try reflexivity. unfold marker_prefix. by destruct Hs as [-> _].
  - apply orb_true_iff in Hc as [[H|H]%orb_true_iff|H]; apply Ascii.eqb_eq in H as ->; reflexivity.
Qed.

Lemma isCacheable_escape s : isCacheable (escape s) false = false.
Proof. unfold isCacheable. rewrite marker_prefix_escape. apply andb_false_r. Qed.

(** A plain string in value position is read as itself, the cache
    untouched. *)
Lemma decodeString_plain s r : escape s = s -> decodeString s false r = Ok (CVal (TStr s), r).
Proof.
  intros He. pose proof (isCacheable_escape s) as Hc. rewrite He in Hc.
  pose proof (not_caret_escape s) as Hn. rewrite He in Hn. destruct (not_caret_code s Hn) as [Hcode _].
  pose proof (parse_entry_escape s) as Hp. rewrite He in Hp.
  unfold decodeString. by rewrite Hc, Hcode, Hp.
Qed.

Lemma decode_plain s r : escape s = s -> decode false (JStr s) r = Ok (TStr s, r).
Proof. intros H. cbn [decode]. by rewrite (rbind_step _ _ _ _ _ (decodeString_plain s r H)). Qed.

(** ** The reader produces well-formed values *)

Lemma rmap_wf {A} (g : A -> RM tval) xs :
  Forall (fun j => forall r v r', rc_wf r -> g j r = Ok (v, r') -> wf v = true /\ rc_wf r') xs ->
  forall r vs r', rc_wf r -> rmap g xs r = Ok (vs, r') -> forallb wf vs = true /\ rc_wf r'.
Proof.
  induction 1 as [|x l Hx _ IH]; intros r vs r' Hr Hd; [by injection Hd as <- <-|].
  cbn [rmap] in Hd. apply rbind_Ok in Hd as (y & r1 & H1 & Hd).
  apply rbind_Ok in Hd as (ys & r2 & H2 & Hd). injection Hd as <- <-.
  destruct (Hx _ _ _ Hr H1) as [Hy Hr1]. destruct (IH _ _ _ Hr1 H2) as [Hys Hr2].
  cbn. by rewrite Hy, Hys.
Qed.

Lemma rpairs_wf gk gv :
  forall xs, Forall (fun j => (forall r v r', rc_wf r -> gk j r = Ok (v, r') -> wf v = true /\ rc_wf r') /\
                              (forall r v r', rc_wf r -> gv j r = Ok (v, r') -> wf v = true /\ rc_wf r')) xs ->
  forall r kvs r', rc_wf r -> rpairs gk gv xs r = Ok (kvs, r') ->
  forallb (fun kv => wf kv.1 && wf kv.2) kvs = true /\ rc_wf r'.
Proof.
  fix IH 1. intros [|a [|b xs]] Hall r kvs r' Hr Hd.
  - by injection Hd as <- <-.
  - discriminate.
  - inversion Hall as [|? ? [Ha _] Hall']; subst. inversion Hall' as [|? ? [_ Hb] Hxs]; subst.
    cbn [rpairs] in Hd. apply rbind_Ok in Hd as (k & r1 & H1 & Hd).
    apply rbind_Ok in Hd as (v & r2 & H2 & Hd). apply rbind_Ok in Hd as (kvs' & r3 & H3 & Hd).
    injection Hd as <- <-.
    destruct (Ha _ _ _ Hr H1) as [Hk Hr1]. destruct (Hb _ _ _ Hr1 H2) as [Hv Hr2].
    destruct (IH xs Hxs _ _ _ Hr2 H3) as [Hkvs Hr3]. cbn. by rewrite Hk, Hv, Hkvs.
Qed.

Lemma pair_up_wf : forall vs kvs, forallb wf vs = true -> pair_up vs = Ok kvs ->
  forallb (fun kv => wf kv.1 && wf kv.2) kvs = true.
Proof.
  fix IH 1. intros [|a [|b vs]] kvs Hvs Hp; cbn in Hp.
  - by injection Hp as <-.
  - discriminate.
  - destruct (pair_up vs) as [kvs'|] eqn:E; [|discriminate]. injection Hp as <-.
    cbn in Hvs |- *. apply andb_true_iff in Hvs as [Ha Hvs]. apply andb_true_iff in Hvs as [Hb Hvs].
    by rewrite Ha, Hb, (IH vs kvs' Hvs E).
Qed.

Lemma tagged_of_wf t v0 v : wf v0 = true -> tagged_of t v0 = Ok v -> wf v = true.
Proof.
  intros H0. unfold tagged_of.
  destruct (String.eqb t "cmap") eqn:Hc.
  - destruct v0; try discriminate. destruct (pair_up xs) as [kvs|] eqn:E; [|discriminate].
    intros [= <-]. exact (pair_up_wf _ _ H0 E).
  - destruct (String.eqb t "'") eqn:Hq; [by intros [= <-]|].
    destruct (String.eqb t "set") eqn:Hs; [discriminate|].
    destruct (String.length t =? 1)%nat eqn:H1; [discriminate|].
    intros [= <-]. cbn. unfold plain_tag. by rewrite Hc, Hq, Hs, H1, H0.
Qed.

Lemma decode_wf j : forall k r v r', rc_wf r -> decode k j r = Ok (v, r') -> wf v = true /\ rc_wf r'.
Proof.
  induction j using json_ind'; intros k r v r' Hr Hd.
  1-3: by injection Hd as <- <-.
  - cbn [decode] in Hd. apply rbind_Ok in Hd as (e & r1 & H1 & H2). apply rlift_Ok in H2 as [Hv ->].
    destruct (decodeString_wf _ _ _ _ _ Hr H1) as [He Hr1]. by destruct e; simplify_eq/=.
  - assert (Harr : (vs ← rmap (decode k) xs; mret (TArray vs)) r = Ok (v, r') -> wf v = true /\ rc_wf r').
    { intros Ha. apply rbind_Ok in Ha as (vs & c1 & Hvs & Hret). injection Hret as <- <-.
      eapply rmap_wf; [|exact Hr|exact Hvs]. eapply Forall_impl; [exact H|]. eauto. }
    destruct xs as [|j0 rest]; [by apply Harr|].
    destruct j0 as [| | |m| |]; try by apply Harr.
    cbn [decode] in Hd. destruct (String.eqb m "^ ") eqn:Hm.
    + apply rbind_Ok in Hd as (kvs & c1 & Hkvs & Hret). injection Hret as <- <-.
      inversion H as [|? ? _ Hrest]; subst.
      destruct (rpairs_wf _ _ rest (Forall_impl _ _ _ Hrest (fun j Hj => conj (Hj true) (Hj false)))
                  _ _ _ Hr Hkvs) as [Hkvs' Hc1].
      done.
    + destruct rest as [|rep [|r2 rest']]; try by apply Harr.
      destruct (decodeString m false r) as [[[v0|t] c1]|e] eqn:Hds; [by apply Harr| |discriminate].
      destruct (decodeString_wf _ _ _ _ _ Hr Hds) as [_ Hr1].
      apply rbind_Ok in Hd as (v1 & c2 & Hrep & Ht). apply rlift_Ok in Ht as [Ht ->].
      inversion H as [|? ? _ Hrest]; subst. inversion Hrest as [|? ? IHrep _]; subst.
      destruct (IHrep _ _ _ _ Hr1 Hrep) as [Hv1 Hc2]. split; [|done].
      exact (tagged_of_wf _ _ _ Hv1 Ht).
  - discriminate.
Qed.

(** ** The codec theorems *)

Lemma write_read v : wf v = true -> read (write v) = Ok v.
Proof.
  intros Hwf. unfold read, write, marshalTop.
  destruct (marshal_decode v Hwf false (fun H => ltac:(discriminate H)) _ _ mirror_init)
    as (r' & Hd & _).
  destruct (stringable v) eqn:Hs.
  - assert (E : ((jt ← emitString "~#'" false; j ← marshal false v; mret (JArr [jt; j]))
                   WriteCache_init).1 = JArr [JStr "~#'"; (marshal false v WriteCache_init).1]).
    { unfold mbind, WM_bind, mret, WM_ret. cbn -[marshal]. by destruct (marshal false v _). }
    rewrite E, decode_JArr_tag by reflexivity. cbn -[decode tagged_of].
    rewrite (rbind_step _ _ _ _ _ Hd). cbn. destruct v; try discriminate; reflexivity.
  - by rewrite Hd.
Qed.

(** Every value the reader produces is well formed: its UUIDs have 64-bit
    halves and its tagged values have tags the reader keeps. *)
Theorem read_wf j v : read j = Ok v -> wf v = true.
Proof.
  unfold read. destruct (decode false j ReadCache_init) as [[v' r']|e] eqn:Hd; cbn; [|discriminate].
  intros [= <-]. exact (proj1 (decode_wf _ _ _ _ _ rc_wf_init Hd)).
Qed.

(** The writer is a right inverse of the reader on well-formed values, a
    top-level scalar and repeated strings written as cache codes
    included. *)
Theorem read_write v : wf v = true -> read (write v) = Ok v.
Proof. apply write_read. Qed.

(** Round-trip fidelity (spec 8): writing back anything the reader
    produced and reading it again gives the same value. *)
Theorem read_roundtrip j v : read j = Ok v -> read (write v) = Ok v.
Proof. intros H. apply write_read. by eapply read_wf. Qed.

#[export] Instance transit_codec_laws : CodecLaws tval json.
Proof. split; [apply write_read|apply read_wf]. Qed.
