(* ===== verification/Accessor.v ===== *)
(** * The semantic map accessor

    [extractFromTransitMapByName(transitMap, _name)] (index.ts 84-87)
    finds with lodash the first key of [transitMap.keySet()] whose [_name]
    field is [_name], then returns [transitMap.get(key)].  A missing name
    gives [undefined] (lodash's [find] returns [undefined] and
    [get(undefined)] finds nothing); a receiver that is not a transit map
    throws a TypeError at [keySet].  The single-scan lookup
    [lookup_by_name] is the reference the two-step code is proved equal
    to. *)

From Stdlib Require Import ZArith String List Lia Permutation.
From stdpp Require Import base list list_monad strings option.
From S2P Require Import Prelude Transit.

(** [_.find(keys, { _name })]. *)
Definition find_key_by_name (keys : list tval) (name : string) : jsval :=
  List.find (fun k => bool_decide (key_name k = Some name)) keys.

Definition extractFromTransitMapByName (transitMap : jsval) (name : string) : result jsval :=
  match transitMap with
  | Some (TMap kvs) =>
      let key := find_key_by_name (keySet kvs) name in
      Ok (get kvs key)
  | None | Some TNull => Throw (TypeError "Cannot read properties of undefined (reading 'keySet')")
  | Some _ => Throw (TypeError "transitMap.keySet is not a function")
  end.

(** ** The reference: one scan for the first entry with that name *)

Fixpoint lookup_by_name (kvs : list (tval * tval)) (name : string) : jsval :=
  match kvs with
  | [] => None
  | (k, v) :: kvs' => if bool_decide (key_name k = Some name) then Some v else lookup_by_name kvs' name
  end.

(** The names the keys of a map carry. *)
Definition key_names (kvs : list (tval * tval)) : list string := omap (fun kv => key_name kv.1) kvs.

(** ** Lemmas *)

Lemma lookup_by_name_None kvs name :
  lookup_by_name kvs name = None <-> Forall (fun kv => key_name kv.1 <> Some name) kvs.
Proof.
  induction kvs as [|[k v] kvs IH]; cbn; [split; [constructor|done]|].
  case_bool_decide as Hk; split.
  - discriminate.
  - intros Hall; inversion Hall; subst; cbn in *; congruence.
  - intros H%IH. by constructor.
  - intros Hall; inversion Hall; subst. by apply IH.
Qed.

Lemma lookup_by_name_Some kvs name v :
  lookup_by_name kvs name = Some v ->
  exists pre k post, kvs = pre ++ (k, v) :: post /\ key_name k = Some name /\
    Forall (fun kv => key_name kv.1 <> Some name) pre.
Proof.
  induction kvs as [|[k w] kvs IH]; cbn; [discriminate|].
  case_bool_decide as Hk.
  - intros [= <-]. by exists [], k, kvs.
  - intros (pre & k' & post & -> & Hk' & Hpre)%IH.
    exists ((k, w) :: pre), k', post. split; [done|]. split; [done|]. by constructor.
Qed.

(** [get] with the key found by [find] stops at the same entry. *)
Lemma get_find_key kvs name :
  get kvs (find_key_by_name (keySet kvs) name) = lookup_by_name kvs name.
Proof.
  unfold find_key_by_name, keySet.
  induction kvs as [|[k v] kvs IH]; cbn; [done|].
  case_bool_decide as Hk; cbn.
  - by rewrite decide_True.
  - rewrite <- IH. destruct (List.find _ _) as [k'|] eqn:Hf; cbn; [|done].
    apply find_some in Hf as [_ Hk']. apply bool_decide_eq_true in Hk'.
    rewrite decide_False; [done|]. intros ->. congruence.
Qed.

(** With distinct names, the entry order does not matter. *)
Lemma lookup_by_name_perm kvs kvs' name :
  NoDup (key_names kvs) -> Permutation kvs kvs' -> lookup_by_name kvs name = lookup_by_name kvs' name.
Proof.
  intros Hnd Hp. induction Hp as [|[k v] kvs kvs' Hp IH|[k1 v1] [k2 v2] kvs|kvs kvs' kvs'' Hp1 IH1 Hp2 IH2].
  - done.
  - cbn. case_bool_decide; [done|]. apply IH. unfold key_names in Hnd. cbn in Hnd.
    destruct (key_name k); [by eapply NoDup_cons_1_2|done].
  - cbn. unfold key_names in Hnd. cbn in Hnd.
    do 2 case_bool_decide; try done.
    destruct (key_name k1) as [n1|], (key_name k2) as [n2|]; simplify_eq.
    apply NoDup_cons_1_1 in Hnd. by destruct Hnd; left.
  - rewrite IH1 by done. apply IH2.
    unfold key_names in *. by rewrite <- Hp1.
Qed.

(** On a transit map the accessor finds the key, then gets its value. *)
Lemma extract_TMap kvs name :
  extractFromTransitMapByName (Some (TMap kvs)) name = Ok (get kvs (find_key_by_name (keySet kvs) name)).
Proof. reflexivity. Qed.

(** The value found is the value of an entry of the map. *)
Lemma extract_In kvs name v :
  extractFromTransitMapByName (Some (TMap kvs)) name = Ok (Some v) ->
  exists k, In (k, v) kvs /\ key_name k = Some name.
Proof.
  rewrite extract_TMap, get_find_key. intros [= (pre & k & post & -> & Hk & _)%lookup_by_name_Some].
  exists k. split; [|done]. apply in_or_app. right. by left.
Qed.

#[export] Hint Rewrite extract_TMap get_find_key : cancel_rw.

(** ** Theorems *)

(** C11: on a transit map, the [find]-then-[get] of the code returns the
    value of the first entry whose key is named [name]. *)
Theorem extract_by_name_spec kvs name :
  extractFromTransitMapByName (Some (TMap kvs)) name = Ok (lookup_by_name kvs name).
Proof. rewrite extract_TMap. f_equal. apply get_find_key. Qed.

(** C18: a name no key carries gives [undefined], not an error: the code has
    no FieldNotFound. *)
Theorem extract_missing_field kvs name :
  Forall (fun kv => key_name kv.1 <> Some name) kvs ->
  extractFromTransitMapByName (Some (TMap kvs)) name = Ok undefined.
Proof. intros H. rewrite extract_TMap, get_find_key. f_equal. by apply lookup_by_name_None. Qed.

(** C22: a receiver that is not a transit map throws a TypeError. *)
Theorem extract_non_map v name :
  (forall kvs, v <> Some (TMap kvs)) ->
  exists msg, extractFromTransitMapByName v name = Throw (TypeError msg).
Proof. intros H. destruct v as [[]|]; cbn; eauto. by destruct (H kvs). Qed.

(** C23: when the keys' names are distinct, the entry order of the map does
    not change the value found (transit-js's hash maps order their keys
    differently from the array maps modelled here). *)
Theorem extract_perm kvs kvs' name :
  NoDup (key_names kvs) -> Permutation kvs kvs' ->
  extractFromTransitMapByName (Some (TMap kvs)) name =
  extractFromTransitMapByName (Some (TMap kvs')) name.
Proof. intros. rewrite !extract_TMap, !get_find_key. f_equal. by apply lookup_by_name_perm. Qed.


(** ** Witnesses *)

Lemma extract_missing_field_witness :
  Forall (fun kv => key_name kv.1 <> Some "workflow/status")
    [(TKeyword "workflow/name", TStr "build"); (TStr "workflow/status", TStr "running")] /\
  extractFromTransitMapByName
    (Some (TMap [(TKeyword "workflow/name", TStr "build"); (TStr "workflow/status", TStr "running")]))
    "workflow/status" = Ok undefined.
Proof.
  assert (H : Forall (fun kv => key_name kv.1 <> Some "workflow/status")
    [(TKeyword "workflow/name", TStr "build"); (TStr "workflow/status", TStr "running")])
    by (repeat constructor; cbn; discriminate).
  split; [exact H|]. exact (extract_missing_field _ _ H).
Defined.

Lemma extract_non_map_witness :
  (forall kvs, Some (TArray [TKeyword "workflow/status"]) <> Some (TMap kvs)) /\
  exists msg, extractFromTransitMapByName (Some (TArray [TKeyword "workflow/status"])) "workflow/status"
              = Throw (TypeError msg).
Proof.
  assert (H : forall kvs, Some (TArray [TKeyword "workflow/status"]) <> Some (TMap kvs))
    by (intros kvs; discriminate).
  split; [exact H|]. exact (extract_non_map _ _ H).
Defined.

Lemma extract_perm_witness :
  NoDup (key_names [(TKeyword "a", TInt 1); (TSymbol "b", TInt 2)]) /\
  Permutation [(TKeyword "a", TInt 1); (TSymbol "b", TInt 2)] [(TSymbol "b", TInt 2); (TKeyword "a", TInt 1)] /\
  extractFromTransitMapByName (Some (TMap [(TKeyword "a", TInt 1); (TSymbol "b", TInt 2)])) "b" =
  extractFromTransitMapByName (Some (TMap [(TSymbol "b", TInt 2); (TKeyword "a", TInt 1)])) "b".
Proof.
  assert (H1 : NoDup (key_names [(TKeyword "a", TInt 1); (TSymbol "b", TInt 2)])) by (apply (bool_decide_unpack _); vm_compute; exact I).
  assert (H2 : Permutation [(TKeyword "a", TInt 1); (TSymbol "b", TInt 2)]
                           [(TSymbol "b", TInt 2); (TKeyword "a", TInt 1)]) by constructor.
  split; [exact H1|]. split; [exact H2|]. exact (extract_perm _ _ _ H1 H2).
Defined.
