(* ===== verification/Workflow.v ===== *)
(** * Workflow records and their extraction

    [WorkflowStatus] and [WorkflowInfo] (index.ts 20-35), the record
    extractor [getInfoForWorkflow] (72-82) and [convertRawWorkflows]
    (68-70), which is lodash's [_.map] over whatever the [results] field
    holds.  The casts of the TypeScript code ([as Date], [as
    WorkflowStatus], [as string]) check nothing at run time, so the fields
    of a record are JavaScript values as the map held them; the [id] is
    the result of [_.invoke(x, 'toString')]. *)

From Stdlib Require Import ZArith String Ascii List Lia.
From stdpp Require Import base list strings option.
From S2P Require Import Prelude Transit Uuid Codec Accessor.

(** ** Data *)

(** [enum WorkflowStatus] and its string values. *)
Inductive WorkflowStatus := SUCCESS | CANCELED | BLOCKED | RUNNING | FAILED.

Definition status_value (s : WorkflowStatus) : string :=
  match s with
  | SUCCESS => "success"
  | CANCELED => "canceled"
  | BLOCKED => "blocked"
  | RUNNING => "running"
  | FAILED => "failed"
  end.

#[export] Instance WorkflowStatus_eq_dec : EqDecision WorkflowStatus.
Proof. solve_decision. Defined.

(** The strings JavaScript's [toString] gives: [undefined] for [undefined]
    and [null] (where [_.invoke] does not call anything), the string
    itself, the text form of a UUID, the decimal form of an integer.  The
    [toString] of keywords, symbols, dates, arrays, maps and tagged values
    is kept abstract. *)
Inductive jsstring :=
| JsUndefined
| JsString (s : string)
| JsOpaque (v : tval).

(** [_.invoke(v, 'toString')]. *)
Definition invoke_toString (v : jsval) : jsstring :=
  match v with
  | None | Some TNull => JsUndefined
  | Some (TStr s) => JsString s
  | Some (TUUID h l) => JsString (uuid_to_string h l)
  | Some (TInt z) => JsString (dec z)
  | Some (TBool b) => JsString (if b then "true" else "false")
  | Some v => JsOpaque v
  end.

(** [interface WorkflowInfo]; the field [id] is [info_id] here, since [id]
    is the identity function of the prelude. *)
Record WorkflowInfo := mkWorkflowInfo {
  info_id : jsstring;
  status : jsval;
  commitSha : jsval;
  branchName : jsval;
  workflowName : jsval;
  createdAt : jsval
}.

(** ** Extraction *)

(** [getInfoForWorkflow(workflow)]: the seven lookups in the order of the
    code; the first that throws aborts the record. *)
Definition getInfoForWorkflow (workflow : jsval) : result WorkflowInfo :=
  createdAt ← extractFromTransitMapByName workflow "workflow/created-at";
  status ← extractFromTransitMapByName workflow "workflow/status";
  workflowName ← extractFromTransitMapByName workflow "workflow/name";
  rawId ← extractFromTransitMapByName workflow "workflow/id";
  let id := invoke_toString rawId in
  triggerInfo ← extractFromTransitMapByName workflow "workflow/trigger-info";
  commitSha ← extractFromTransitMapByName triggerInfo "trigger-info/vcs-revision";
  branchName ← extractFromTransitMapByName triggerInfo "trigger-info/branch";
  Ok {| info_id := id; createdAt := createdAt; status := status; commitSha := commitSha;
        workflowName := workflowName; branchName := branchName |}.

(** What lodash's collection functions iterate over: the elements of an
    array or of a string, nothing for [undefined], [null], numbers,
    booleans and dates, and the own enumerable fields of the other transit
    objects (keywords, symbols, UUIDs, maps, tagged values), none of which
    is a transit map. *)
Inductive collection :=
| Elements (xs : list jsval)
| ObjectFields.

Definition lodash_collection (v : jsval) : collection :=
  match v with
  | None | Some TNull | Some (TBool _) | Some (TInt _) | Some (TDate _) => Elements []
  | Some (TArray xs) => Elements (map Some xs)
  | Some (TStr s) => Elements (map (fun c => Some (TStr (String c EmptyString))) (list_ascii_of_string s))
  | Some _ => ObjectFields
  end.

(** [convertRawWorkflows(rawWorkflows)] = [_.map(rawWorkflows,
    getInfoForWorkflow)]: on an object, [getInfoForWorkflow] meets a field
    that is not a transit map first and throws. *)
Definition convertRawWorkflows (rawWorkflows : jsval) : result (list WorkflowInfo) :=
  match lodash_collection rawWorkflows with
  | Elements xs => mapR getInfoForWorkflow xs
  | ObjectFields => Throw (TypeError "transitMap.keySet is not a function")
  end.

(** ** The spec's reading of a status (4.4), for comparison *)

Definition status_of_value (s : string) : option WorkflowStatus :=
  List.find (fun st => String.eqb (status_value st) s) [SUCCESS; CANCELED; BLOCKED; RUNNING; FAILED].

(** ** Sample data for the witnesses *)

Definition sample_trigger (branch : option string) : list (tval * tval) :=
  (TKeyword "trigger-info/vcs-revision", TStr "abc123") ::
  match branch with Some b => [(TKeyword "trigger-info/branch", TStr b)] | None => [] end.

Definition sample_workflow (h l : Z) (st : string) (branch : option string) : list (tval * tval) :=
  [(TKeyword "workflow/id", TUUID h l); (TKeyword "workflow/status", TStr st);
   (TKeyword "workflow/name", TStr "build"); (TKeyword "workflow/created-at", TDate 1581000000000);
   (TKeyword "workflow/trigger-info", TMap (sample_trigger branch))].

(** The record the extractor builds from the lookups. *)
Definition info_of (kvs tkvs : list (tval * tval)) : WorkflowInfo := {|
  info_id := invoke_toString (lookup_by_name kvs "workflow/id");
  status := lookup_by_name kvs "workflow/status";
  commitSha := lookup_by_name tkvs "trigger-info/vcs-revision";
  branchName := lookup_by_name tkvs "trigger-info/branch";
  workflowName := lookup_by_name kvs "workflow/name";
  createdAt := lookup_by_name kvs "workflow/created-at"
|}.

(** ** Lemmas *)

Lemma status_of_value_Some s st : status_of_value s = Some st -> status_value st = s.
Proof. unfold status_of_value. intros [_ H]%find_some. by apply String.eqb_eq. Qed.

(** ** Theorems *)

(** C12: on a workflow map whose trigger-info is a map, every field of the
    record is the value of the first key of that name (the status
    unchecked, the id through [toString]). *)
Theorem getInfoForWorkflow_spec kvs tkvs :
  lookup_by_name kvs "workflow/trigger-info" = Some (TMap tkvs) ->
  getInfoForWorkflow (Some (TMap kvs)) = Ok (info_of kvs tkvs).
Proof.
  intros Ht. unfold getInfoForWorkflow. autorewrite with cancel_rw. cbn.
  rewrite Ht. cbn. by autorewrite with cancel_rw.
Qed.

(** C21: a workflow whose trigger-info is missing or not a map makes the
    extraction throw a TypeError (at the vcs-revision lookup). *)
Theorem getInfoForWorkflow_trigger_error kvs :
  (forall tkvs, lookup_by_name kvs "workflow/trigger-info" <> Some (TMap tkvs)) ->
  exists msg, getInfoForWorkflow (Some (TMap kvs)) = Throw (TypeError msg).
Proof.
  intros Ht. unfold getInfoForWorkflow. autorewrite with cancel_rw. cbn.
  destruct (lookup_by_name kvs "workflow/trigger-info") as [[]|] eqn:E; cbn; eauto.
  by destruct (Ht kvs0).
Qed.

(** C17: a trigger-info without a branch still gives a record, whose
    [branchName] is [undefined]: no FieldNotFound, no fail-fast. *)
Theorem getInfoForWorkflow_missing_branch kvs tkvs :
  lookup_by_name kvs "workflow/trigger-info" = Some (TMap tkvs) ->
  Forall (fun kv => key_name kv.1 <> Some "trigger-info/branch") tkvs ->
  exists info, getInfoForWorkflow (Some (TMap kvs)) = Ok info /\ branchName info = undefined.
Proof.
  intros Ht Hb. eexists. split.
  - unfold getInfoForWorkflow. autorewrite with cancel_rw. cbn. rewrite Ht. cbn.
    autorewrite with cancel_rw. reflexivity.
  - cbn. by apply lookup_by_name_None.
Qed.

(** When what [_.map] iterates is not an array, [convertRawWorkflows]
    gives no record, or throws the TypeError of [getInfoForWorkflow] on a
    receiver that is not a transit map: a string is iterated by
    characters, any other object by its own fields. *)
Lemma convertRawWorkflows_not_array v :
  (forall xs, v <> Some (TArray xs)) ->
  convertRawWorkflows v = Ok [] \/ exists m, convertRawWorkflows v = Throw (TypeError m).
Proof.
  intros Hv. destruct v as [t|]; [|by left].
  unfold convertRawWorkflows, lodash_collection.
  destruct t as [ | | | s | | | | | xs | | ]; try (by left); try (right; by eexists).
  - destruct (list_ascii_of_string s) as [|ch chs]; cbn; [by left|right; by eexists].
  - by destruct (Hv xs).
Qed.

(** ** Witnesses *)

Lemma getInfoForWorkflow_spec_witness :
  lookup_by_name (sample_workflow 1 2 "running" (Some "main")) "workflow/trigger-info" =
    Some (TMap (sample_trigger (Some "main"))) /\
  getInfoForWorkflow (Some (TMap (sample_workflow 1 2 "running" (Some "main")))) =
    Ok (info_of (sample_workflow 1 2 "running" (Some "main")) (sample_trigger (Some "main"))).
Proof.
  assert (H : lookup_by_name (sample_workflow 1 2 "running" (Some "main")) "workflow/trigger-info" =
    Some (TMap (sample_trigger (Some "main")))) by reflexivity.
  split; [exact H|]. exact (getInfoForWorkflow_spec _ _ H).
Defined.

Lemma getInfoForWorkflow_trigger_error_witness :
  (forall tkvs, lookup_by_name [(TKeyword "workflow/id", TUUID 1 2)] "workflow/trigger-info" <> Some (TMap tkvs)) /\
  exists msg, getInfoForWorkflow (Some (TMap [(TKeyword "workflow/id", TUUID 1 2)])) = Throw (TypeError msg).
Proof.
  assert (H : forall tkvs, lookup_by_name [(TKeyword "workflow/id", TUUID 1 2)] "workflow/trigger-info"
                           <> Some (TMap tkvs)) by (intros tkvs; cbn; discriminate).
  split; [exact H|]. exact (getInfoForWorkflow_trigger_error _ H).
Defined.

Lemma getInfoForWorkflow_missing_branch_witness :
  lookup_by_name (sample_workflow 1 2 "running" None) "workflow/trigger-info" =
    Some (TMap (sample_trigger None)) /\
  Forall (fun kv => key_name kv.1 <> Some "trigger-info/branch") (sample_trigger None) /\
  exists info, getInfoForWorkflow (Some (TMap (sample_workflow 1 2 "running" None))) = Ok info /\
               branchName info = undefined.
Proof.
  assert (H1 : lookup_by_name (sample_workflow 1 2 "running" None) "workflow/trigger-info" =
    Some (TMap (sample_trigger None))) by reflexivity.
  assert (H2 : Forall (fun kv => key_name kv.1 <> Some "trigger-info/branch") (sample_trigger None))
    by (repeat constructor; cbn; discriminate).
  split; [exact H1|]. split; [exact H2|]. exact (getInfoForWorkflow_missing_branch _ _ H1 H2).
Defined.
