(* ===== verification/Selection.v ===== *)
(** * The selection of the builds to cancel

    index.ts 107-110:
    [const [thisBuild, ...oldBuilds] = _.filter(workflows, { branchName: CIRCLE_BRANCH });]
    [const buildsToCancel = _.filter(oldBuilds, build => _.includes([RUNNING, BLOCKED], build.status));]
    [_.filter] with an object source compares with [===] ([js_eq_env]);
    [_.includes] compares with SameValueZero, under which a status equals
    ["running"] or ["blocked"] only if it is that primitive string.
    Destructuring an empty array gives [thisBuild = undefined] and
    [oldBuilds = []].

    The spec's Selection Engine (4.5) is stated as [spec_select] and
    [spec_targets]; [selectBuilds_refines] relates the two. *)

From Stdlib Require Import ZArith String List Lia.
From stdpp Require Import base list strings option.
From S2P Require Import Prelude Transit Workflow.

(** ** The code *)

(** [_.matches({ branchName: CIRCLE_BRANCH })]. *)
Definition matchesBranch (CIRCLE_BRANCH : option string) (build : WorkflowInfo) : bool :=
  js_eq_env (branchName build) CIRCLE_BRANCH.

(** [_.includes(values, v)] for a list of strings. *)
Definition includes_str (values : list string) (v : jsval) : bool :=
  match v with
  | Some (TStr s) => existsb (String.eqb s) values
  | _ => false
  end.

Definition isCancelable (build : WorkflowInfo) : bool :=
  includes_str [status_value RUNNING; status_value BLOCKED] (status build).

(** [const [thisBuild, ...oldBuilds] = xs]. *)
Definition destructure (xs : list WorkflowInfo) : option WorkflowInfo * list WorkflowInfo :=
  match xs with
  | [] => (None, [])
  | x :: rest => (Some x, rest)
  end.

(** Lines 107-110: this build and the builds to cancel. *)
Definition selectBuilds (CIRCLE_BRANCH : option string) (workflows : list WorkflowInfo)
    : option WorkflowInfo * list WorkflowInfo :=
  let '(thisBuild, oldBuilds) := destructure (List.filter (matchesBranch CIRCLE_BRANCH) workflows) in
  (thisBuild, List.filter isCancelable oldBuilds).

Definition buildsToCancel (CIRCLE_BRANCH : option string) (workflows : list WorkflowInfo) :=
  (selectBuilds CIRCLE_BRANCH workflows).2.

(** ** The spec's Selection Engine *)

Inductive SelectError := NoMatchingBuild.

(** [select(records, activeBranch)]: the records of the branch in server
    order; the first is the current build, the rest are stale. *)
Definition spec_select (records : list WorkflowInfo) (activeBranch : string)
    : (WorkflowInfo * list WorkflowInfo) + SelectError :=
  match List.filter (fun r => bool_decide (branchName r = Some (TStr activeBranch))) records with
  | [] => inr NoMatchingBuild
  | current :: stale => inl (current, stale)
  end.

(** The cancellation targets: the stale records whose status is [running]
    or [blocked]. *)
Definition spec_cancelable (r : WorkflowInfo) : bool :=
  match status r with
  | Some (TStr s) => bool_decide (status_of_value s ∈ [Some RUNNING; Some BLOCKED])
  | _ => false
  end.

Definition spec_targets (stale : list WorkflowInfo) : list WorkflowInfo :=
  List.filter spec_cancelable stale.

(** ** Sample data for the witnesses *)

(** A build of branch [branch] with status [st], created at time [n]. *)
Definition sample_build (n : Z) (branch : option string) (st : string) : WorkflowInfo := {|
  info_id := JsString "0000000a-0000-0000-0000-000000000001";
  status := Some (TStr st);
  commitSha := Some (TStr "abc123");
  branchName := option_map TStr branch;
  workflowName := Some (TStr "build");
  createdAt := Some (TDate n)
|}.

(** ** Lemmas *)

Lemma matchesBranch_Some b w : matchesBranch (Some b) w = bool_decide (branchName w = Some (TStr b)).
Proof.
  unfold matchesBranch, js_eq_env. case_bool_decide as H.
  - rewrite H. apply String.eqb_refl.
  - destruct (branchName w) as [[]|]; try done. apply String.eqb_neq. congruence.
Qed.

Lemma isCancelable_spec_cancelable w : isCancelable w = spec_cancelable w.
Proof.
  unfold isCancelable, spec_cancelable, includes_str. destruct (status w) as [[]|]; try done.
  cbn. rewrite orb_false_r.
  destruct (String.eqb_spec s "running") as [->|Hr]; [done|].
  destruct (String.eqb_spec s "blocked") as [->|Hb]; [done|].
  symmetry. apply bool_decide_eq_false. intros Hin%list_elem_of_In.
  destruct Hin as [H|[H|[]]]; symmetry in H; apply status_of_value_Some in H; cbn in H; congruence.
Qed.

(** A member of the tail of a filtered list sits behind another member. *)
Lemma in_tl_filter {A} (p : A -> bool) (l : list A) x :
  In x (tail (List.filter p l)) <->
  exists pre post, l = pre ++ x :: post /\ p x = true /\ Exists (fun y => p y = true) pre.
Proof.
  induction l as [|y l IH]; cbn; [split; [done|]; intros (pre & post & H & _); by destruct pre|].
  destruct (p y) eqn:Hy; cbn.
  - split.
    + intros (Hin & Hx)%filter_In. apply in_split in Hin as (pre & post & ->).
      exists (y :: pre), post. split; [done|]. split; [done|]. by constructor.
    + intros (pre & post & Hl & Hx & Hex). apply filter_In. split; [|done].
      destruct pre as [|z pre]; [inversion Hex|]. injection Hl as -> ->.
      apply in_or_app. right. by left.
  - rewrite IH. split.
    + intros (pre & post & -> & Hx & Hex). exists (y :: pre), post. split; [done|]. split; [done|].
      by constructor 2.
    + intros (pre & post & Hl & Hx & Hex). destruct pre as [|z pre]; cbn in Hl; injection Hl as -> Hl.
      * congruence.
      * exists pre, post. split; [done|]. split; [done|]. inversion Hex; subst; [congruence|done].
Qed.

Lemma selectBuilds_snd b ws :
  buildsToCancel b ws = List.filter isCancelable (tail (List.filter (matchesBranch b) ws)).
Proof. unfold buildsToCancel, selectBuilds. by destruct (List.filter _ ws). Qed.

(** ** Theorems *)

(** C1: a build is cancelled exactly when it is on the build's branch, its
    status is [running] or [blocked], and another build of the branch
    comes before it in the server's order. *)
Theorem buildsToCancel_iff b ws w :
  In w (buildsToCancel b ws) <->
  exists pre post, ws = pre ++ w :: post /\ matchesBranch b w = true /\
    isCancelable w = true /\ Exists (fun x => matchesBranch b x = true) pre.
Proof.
  rewrite selectBuilds_snd, filter_In, in_tl_filter. split.
  - intros [(pre & post & ? & ? & ?) ?]. by exists pre, post.
  - intros (pre & post & ? & ? & ? & ?). split; [by exists pre, post|done].
Qed.

(** C4: the first build of the branch is this build and is never
    cancelled: the builds cancelled are the cancelable builds of the
    branch that come after it, in order. *)
Theorem selectBuilds_current b pre w post :
  Forall (fun x => matchesBranch b x = false) pre -> matchesBranch b w = true ->
  selectBuilds b (pre ++ w :: post) =
    (Some w, List.filter isCancelable (List.filter (matchesBranch b) post)).
Proof.
  intros Hpre Hw. unfold selectBuilds.
  rewrite filter_app, (proj2 (filter_nil_Forall _ _) Hpre). cbn. by rewrite Hw.
Qed.

(** C16: when no build is on the branch the code cancels nothing and
    reports nothing: there is no NoMatchingBuild error. *)
Theorem selectBuilds_no_history b ws :
  Forall (fun x => matchesBranch b x = false) ws -> selectBuilds b ws = (None, []).
Proof. intros H. unfold selectBuilds. by rewrite (proj2 (filter_nil_Forall _ _) H). Qed.

(** C3: refinement of the spec's Selection Engine: for a defined branch,
    when the spec selects a current build and stale builds, the code keeps
    the same current build and cancels exactly the spec's targets; when
    the spec fails with NoMatchingBuild, the code selects nothing. *)
Theorem selectBuilds_refines ws b :
  match spec_select ws b with
  | inl (current, stale) => selectBuilds (Some b) ws = (Some current, spec_targets stale)
  | inr NoMatchingBuild => selectBuilds (Some b) ws = (None, [])
  end.
Proof.
  unfold spec_select, selectBuilds.
  rewrite (filter_ext _ _ (matchesBranch_Some b)).
  destruct (List.filter _ ws) as [|current stale]; cbn; [done|].
  unfold spec_targets. f_equal. apply filter_ext, isCancelable_spec_cancelable.
Qed.

(** C25: with [CIRCLE_BRANCH] unset, the builds "on the branch" are the
    builds whose branch is missing. *)
Theorem matchesBranch_undefined w : matchesBranch undefined w = true <-> branchName w = undefined.
Proof. unfold matchesBranch, js_eq_env. by destruct (branchName w) as [[]|]. Qed.

(** ** Witnesses *)

Lemma selectBuilds_current_witness :
  Forall (fun x => matchesBranch (Some "main") x = false) [sample_build 5 (Some "dev") "running"] /\
  matchesBranch (Some "main") (sample_build 4 (Some "main") "running") = true /\
  selectBuilds (Some "main")
    ([sample_build 5 (Some "dev") "running"] ++ sample_build 4 (Some "main") "running" ::
     [sample_build 3 (Some "main") "blocked"]) =
  (Some (sample_build 4 (Some "main") "running"),
   List.filter isCancelable (List.filter (matchesBranch (Some "main")) [sample_build 3 (Some "main") "blocked"])).
Proof.
  assert (H1 : Forall (fun x => matchesBranch (Some "main") x = false) [sample_build 5 (Some "dev") "running"])
    by (repeat constructor).
  assert (H2 : matchesBranch (Some "main") (sample_build 4 (Some "main") "running") = true) by reflexivity.
  split; [exact H1|]. split; [exact H2|]. exact (selectBuilds_current _ _ _ _ H1 H2).
Defined.

Lemma selectBuilds_no_history_witness :
  Forall (fun x => matchesBranch (Some "main") x = false)
    [sample_build 2 (Some "dev") "running"; sample_build 1 None "blocked"] /\
  selectBuilds (Some "main") [sample_build 2 (Some "dev") "running"; sample_build 1 None "blocked"] = (None, []).
Proof.
  assert (H : Forall (fun x => matchesBranch (Some "main") x = false)
    [sample_build 2 (Some "dev") "running"; sample_build 1 None "blocked"]) by (repeat constructor).
  split; [exact H|]. exact (selectBuilds_no_history _ _ H).
Defined.
