(* ===== verification/Cancel.v ===== *)
(** * The cancel command

    [cancelBuild({ id, workflowName })] (index.ts 89-101) decodes the fixed
    template of line 90, takes the map at [rep.1] of the decoded list,
    destructures its first two keys, overwrites their values in place with
    [transit.UUIDfromString(id)] and [workflowName], and writes the whole
    [cancelQuery] again.  The map is shared with [cancelQuery]: the update
    is visible through [cancelQuery], which [set_rep_1] writes out.  The
    request itself (lines 97-100) is sent in [Pipeline]. *)

From Stdlib Require Import ZArith String List Lia.
From stdpp Require Import base list strings option.
From S2P Require Import Prelude Transit Uuid Codec Cache Marshal Workflow.

(** ** The code *)

(** The template of line 90, as [JSON.parse] gives it to the reader. *)
Definition cancel_template : json :=
  JArr [JStr "~#list"; JArr [JStr "~$run/cancel";
    JArr [JStr "^ "; JStr "~:run/id"; JStr ""; JStr "~:run/name"; JStr ""]]].

(** [_.get(cancelQuery, 'rep.1')]: the second element of the
    representation of a tagged list. *)
Definition get_rep_1 (v : tval) : jsval :=
  match v with
  | TTagged _ (TArray xs) => xs !! 1
  | _ => None
  end.

(** The same object seen from [cancelQuery] once it has been updated. *)
Definition set_rep_1 (v : tval) (m : tval) : tval :=
  match v with
  | TTagged t (TArray xs) => TTagged t (TArray (<[1 := m]> xs))
  | _ => v
  end.

(** [transit.UUIDfromString(id)]: [id.replace] throws on [undefined]. *)
Definition UUIDfromString (id : jsstring) : result tval :=
  match id with
  | JsUndefined => Throw (TypeError "Cannot read properties of undefined (reading 'replace')")
  | JsString s =>
      match uuid_from_string s with
      | Some (h, l) => Ok (TUUID h l)
      | None => Throw (Unmodelled "UUID text outside the canonical form")
      end
  | JsOpaque _ => Throw (Unmodelled "toString of a non-scalar id")
  end.

(** A map value as the writer sees it: [undefined] is written as [null]. *)
Definition to_wire (v : jsval) : tval :=
  match v with
  | Some t => t
  | None => TNull
  end.

(** Lines 90-98: the body of the cancel request. *)
Definition cancelQuery_body (info : WorkflowInfo) : result json :=
  cancelQuery ← read cancel_template;
  match get_rep_1 cancelQuery with
  | Some (TMap kvs) =>
      match keySet kvs with
      | idKey :: nameKey :: _ =>
          uuid ← UUIDfromString (info_id info);
          let kvs1 := set kvs idKey uuid in
          let kvs2 := set kvs1 nameKey (to_wire (workflowName info)) in
          Ok (write (set_rep_1 cancelQuery (TMap kvs2)))
      | _ => Throw (Unmodelled "template with fewer than two keys")
      end
  | _ => Throw (TypeError "transitMap.keySet is not a function")
  end.

(** The decoded template. *)
Definition template_value : tval :=
  TTagged "list" (TArray [TSymbol "run/cancel";
    TMap [(TKeyword "run/id", TStr ""); (TKeyword "run/name", TStr "")]]).

(** The command once the two values are set, as it is in memory. *)
Definition cancel_command (uuid name : tval) : tval :=
  TTagged "list" (TArray [TSymbol "run/cancel";
    TMap [(TKeyword "run/id", uuid); (TKeyword "run/name", name)]]).

(** ** Sample data for the witnesses *)

Definition sample_info (id : jsstring) : WorkflowInfo := {|
  info_id := id;
  status := Some (TStr "running");
  commitSha := Some (TStr "abc123");
  branchName := Some (TStr "main");
  workflowName := Some (TStr "build");
  createdAt := Some (TDate 1581000000000)
|}.

Definition sample_uuid : tval := TUUID 81985529216486895 1311768467463790320.

(** ** Lemmas *)

Lemma read_cancel_template : read cancel_template = Ok template_value.
Proof. reflexivity. Qed.

Lemma cancelQuery_body_spec info uuid :
  UUIDfromString (info_id info) = Ok uuid ->
  cancelQuery_body info = Ok (write (cancel_command uuid (to_wire (workflowName info)))).
Proof.
  intros Hu. unfold cancelQuery_body. rewrite read_cancel_template. cbn -[write set].
  rewrite Hu. cbn -[write]. done.
Qed.

(** What the writer emits for the command: the four strings of the
    template are first occurrences and go out as they are; the UUID is
    never cached; the name is written from the cache those four strings
    left. *)
Lemma write_cancel_command h l name :
  exists w4, write (cancel_command (TUUID h l) name) =
    JArr [JStr "~#list"; JArr [JStr "~$run/cancel";
      JArr [JStr "^ "; JStr "~:run/id"; JStr ("~u" ++ uuid_to_string h l);
            JStr "~:run/name"; (marshal false name w4).1]]].
Proof.
  exists (mkWriteCache 4 (<["~:run/name" := 3]> (<["~:run/id" := 2]>
           (<["~$run/cancel" := 1]> (<["~#list" := 0]> ∅))))).
  unfold write, marshalTop, cancel_command. cbn [stringable].
  rewrite marshal_TTagged. cbv zeta.
  rewrite marshal_TArray, !wmap_cons, marshal_TMap. cbn [forallb stringable andb fst snd].
  repeat (rewrite wpairs_cons; cbv zeta; cbn [fst snd]).
  cbn [wpairs wmap]. unfold mret, WM_ret. cbn [fst snd].
  assert (Hu : forall w, marshal false (TUUID h l) w = (JStr ("~u" ++ uuid_to_string h l), w)).
  { intros w. cbn [marshal]. rewrite emitString_eq. by rewrite wc_write_skip by apply isCacheable_uuid. }
  rewrite !Hu. cbn [fst snd].
  generalize (marshal false name) as f. generalize ("~u" ++ uuid_to_string h l)%string as u.
  intros u f. vm_compute. reflexivity.
Qed.

Lemma UUIDfromString_toString h l :
  (0 <= h < 2 ^ 64)%Z -> (0 <= l < 2 ^ 64)%Z ->
  UUIDfromString (invoke_toString (Some (TUUID h l))) = Ok (TUUID h l).
Proof. intros Hh Hl. cbn -[uuid_from_string]. by rewrite uuid_to_from_string. Qed.

(** ** Theorems *)

(** C5: key-identity preservation (spec 8): whatever id and name are set,
    the body of the cancel request carries the template's keys
    ["~:run/id"] and ["~:run/name"], byte for byte and not as cache codes,
    in the template's order, the UUID written in full after the first; a
    name that is a string is written as its transit-escaped text, a missing
    name as [null]. *)
Theorem cancelQuery_body_keys info h l :
  UUIDfromString (info_id info) = Ok (TUUID h l) ->
  exists jn, cancelQuery_body info =
    Ok (JArr [JStr "~#list"; JArr [JStr "~$run/cancel";
         JArr [JStr "^ "; JStr "~:run/id"; JStr ("~u" ++ uuid_to_string h l);
               JStr "~:run/name"; jn]]]) /\
    (forall s, workflowName info = Some (TStr s) -> jn = JStr (escape s)) /\
    (workflowName info = undefined -> jn = JNull).
Proof.
  intros Hu. rewrite (cancelQuery_body_spec info _ Hu).
  destruct (write_cancel_command h l (to_wire (workflowName info))) as [w4 ->].
  eexists. split; [reflexivity|]. split.
  - intros s Hs. rewrite Hs. cbn [to_wire marshal].
    by rewrite emitString_eq, wc_write_skip by apply isCacheable_escape.
  - intros Hn. by rewrite Hn.
Qed.

(** C9: the cancel request names the run the server described: when the
    record's id is the text of a server UUID, reading the body back gives
    the cancel command with that very UUID and the record's name. *)
Theorem cancelQuery_body_uuid info h l :
  (0 <= h < 2 ^ 64)%Z -> (0 <= l < 2 ^ 64)%Z ->
  info_id info = invoke_toString (Some (TUUID h l)) ->
  wf (to_wire (workflowName info)) = true ->
  exists body, cancelQuery_body info = Ok body /\
    read body = Ok (cancel_command (TUUID h l) (to_wire (workflowName info))).
Proof.
  intros Hh Hl Hid Hname.
  exists (write (cancel_command (TUUID h l) (to_wire (workflowName info)))). split.
  - apply cancelQuery_body_spec. rewrite Hid. by apply UUIDfromString_toString.
  - refine (codec_roundtrip (V := tval) (W := json)
              (cancel_command (TUUID h l) (to_wire (workflowName info))) _). cbn.
    rewrite Hname, !andb_true_r, !andb_true_iff, !Z.leb_le, !Z.ltb_lt. lia.
Qed.

(** C24: a record without an id makes [cancelBuild] throw a TypeError
    before any request (in [UUIDfromString]). *)
Theorem cancelQuery_body_no_id info :
  info_id info = JsUndefined ->
  exists msg, cancelQuery_body info = Throw (TypeError msg).
Proof.
  intros Hid. unfold cancelQuery_body. rewrite read_cancel_template. cbn -[set].
  rewrite Hid. by eexists.
Qed.

(** C13: the id the extractor takes from a server UUID is its canonical
    36-character text, and [transit.UUIDfromString] in [cancelBuild] reads
    that text back into the same UUID. *)
Theorem UUIDfromString_roundtrip h l :
  (0 <= h < 2 ^ 64)%Z -> (0 <= l < 2 ^ 64)%Z ->
  invoke_toString (Some (TUUID h l)) = JsString (uuid_to_string h l) /\
  String.length (uuid_to_string h l) = 36%nat /\
  UUIDfromString (invoke_toString (Some (TUUID h l))) = Ok (TUUID h l).
Proof.
  intros Hh Hl. split; [done|]. split; [apply (uuid_roundtrip h l Hh Hl)|].
  by apply UUIDfromString_toString.
Qed.

(** ** Witnesses *)

Lemma cancelQuery_body_keys_witness :
  UUIDfromString (info_id (sample_info (invoke_toString (Some sample_uuid)))) =
    Ok (TUUID 81985529216486895 1311768467463790320) /\
  exists jn, cancelQuery_body (sample_info (invoke_toString (Some sample_uuid))) =
    Ok (JArr [JStr "~#list"; JArr [JStr "~$run/cancel";
         JArr [JStr "^ "; JStr "~:run/id";
               JStr ("~u" ++ uuid_to_string 81985529216486895 1311768467463790320);
               JStr "~:run/name"; jn]]]) /\
    (forall s, workflowName (sample_info (invoke_toString (Some sample_uuid))) = Some (TStr s) ->
               jn = JStr (escape s)) /\
    (workflowName (sample_info (invoke_toString (Some sample_uuid))) = undefined -> jn = JNull).
Proof.
  assert (H : UUIDfromString (info_id (sample_info (invoke_toString (Some sample_uuid)))) =
              Ok (TUUID 81985529216486895 1311768467463790320)) by (vm_compute; reflexivity).
  split; [exact H|]. exact (cancelQuery_body_keys _ _ _ H).
Defined.

Lemma cancelQuery_body_uuid_witness :
  (0 <= 81985529216486895 < 2 ^ 64)%Z /\ (0 <= 1311768467463790320 < 2 ^ 64)%Z /\
  info_id (sample_info (invoke_toString (Some sample_uuid))) =
    invoke_toString (Some (TUUID 81985529216486895 1311768467463790320)) /\
  wf (to_wire (workflowName (sample_info (invoke_toString (Some sample_uuid))))) = true /\
  exists body, cancelQuery_body (sample_info (invoke_toString (Some sample_uuid))) = Ok body /\
    read body = Ok (cancel_command sample_uuid (TStr "build")).
Proof.
  assert (Hh : (0 <= 81985529216486895 < 2 ^ 64)%Z) by lia.
  assert (Hl : (0 <= 1311768467463790320 < 2 ^ 64)%Z) by lia.
  assert (Hid : info_id (sample_info (invoke_toString (Some sample_uuid))) =
                invoke_toString (Some (TUUID 81985529216486895 1311768467463790320))) by reflexivity.
  assert (Hn : wf (to_wire (workflowName (sample_info (invoke_toString (Some sample_uuid))))) = true)
    by reflexivity.
  do 4 (split; [assumption|]). exact (cancelQuery_body_uuid _ _ _ Hh Hl Hid Hn).
Defined.

Lemma cancelQuery_body_no_id_witness :
  info_id (sample_info JsUndefined) = JsUndefined /\
  exists msg, cancelQuery_body (sample_info JsUndefined) = Throw (TypeError msg).
Proof.
  assert (H : info_id (sample_info JsUndefined) = JsUndefined) by reflexivity.
  split; [exact H|]. exact (cancelQuery_body_no_id _ H).
Defined.

Lemma UUIDfromString_roundtrip_witness :
  (0 <= 81985529216486895 < 2 ^ 64)%Z /\ (0 <= 1311768467463790320 < 2 ^ 64)%Z /\
  invoke_toString (Some sample_uuid) = JsString "01234567-89ab-cdef-1234-56789abcdef0" /\
  String.length "01234567-89ab-cdef-1234-56789abcdef0" = 36%nat /\
  UUIDfromString (invoke_toString (Some sample_uuid)) = Ok sample_uuid.
Proof.
  assert (Hh : (0 <= 81985529216486895 < 2 ^ 64)%Z) by lia.
  assert (Hl : (0 <= 1311768467463790320 < 2 ^ 64)%Z) by lia.
  split; [exact Hh|]. split; [exact Hl|].
  assert (Hs : uuid_to_string 81985529216486895 1311768467463790320 =
                "01234567-89ab-cdef-1234-56789abcdef0") by (vm_compute; reflexivity).
  pose proof (UUIDfromString_roundtrip _ _ Hh Hl) as H. rewrite Hs in H. exact H.
Defined.

