(* ===== verification/Pipeline.v ===== *)
(** * The module state and the default export

    The module keeps two pieces of state (index.ts 9-18): the variable
    [cookie], [undefined] at load, and the object [REQUEST_HEADERS], built
    once at load time from the value [cookie] has then.  The default export
    (103-112) checks the cookie, assigns [cookie], sends the list query
    ([getRawWorkflows], 41-66), converts and selects the workflows, calls
    [cancelBuild] (89-101) on every build to cancel and waits for
    [Promise.all] of the results.

    The model passes a [State] explicitly; the requests axios sends are
    appended to the trace [sent].  The answers come from a [World]: the
    answer to the list query, the answer to the i-th cancel request, and
    the order in which the cancel requests settle.  [reachable] is the
    step relation of the module: its load, then any number of calls of the
    default export. *)

From Stdlib Require Import ZArith String List Lia.
From stdpp Require Import base list strings option.
From S2P Require Import Prelude Transit Codec Cache Marshal Accessor Workflow Selection Cancel.

(** ** Environment, requests and state *)

(** The CircleCI environment variables read at load time (line 39). *)
Record Env := mkEnv {
  CIRCLE_BRANCH : option string;
  CIRCLE_PROJECT_USERNAME : option string;
  CIRCLE_PROJECT_REPONAME : option string
}.

Definition CIRCLE_QUERY_API : string := "https://circleci.com/query-api".

Record Headers := mkHeaders {
  Host : string;
  Accept : string;
  Origin : string;
  ContentType : string;
  Cookie : jsval
}.

(** The object literal of lines 12-18, evaluated with the value [cookie]
    has at that moment. *)
Definition request_headers (cookie : jsval) : Headers := {|
  Host := "circleci.com";
  Accept := "application/transit+json";
  Origin := "https://circleci.com";
  ContentType := "application/transit+json; charset=UTF-8";
  Cookie := cookie
|}.

Record Request := mkRequest {
  req_url : string;
  req_data : json;
  req_headers : Headers
}.

Record State := mkState {
  cookie : jsval;
  REQUEST_HEADERS : Headers;
  sent : list Request
}.

(** Loading the module: [let cookie;] then [const REQUEST_HEADERS = ...]. *)
Definition module_init : State :=
  let cookie := undefined in
  {| cookie := cookie; REQUEST_HEADERS := request_headers cookie; sent := [] |}.

(** [axios.get(CIRCLE_QUERY_API, { data, headers: REQUEST_HEADERS })]. *)
Definition send (st : State) (data : json) : State := {|
  cookie := cookie st;
  REQUEST_HEADERS := REQUEST_HEADERS st;
  sent := sent st ++ [{| req_url := CIRCLE_QUERY_API; req_data := data;
                         req_headers := REQUEST_HEADERS st |}]
|}.

(** What axios answers. *)
Record World := mkWorld {
  list_response : result (option json);
  cancel_response : nat -> result unit;
  settle_order : list nat
}.

(** ** getRawWorkflows (lines 41-66) *)

(** An environment variable inside the request body: [JSON.stringify]
    writes an [undefined] array element as [null]. *)
Definition env_json (v : option string) : json :=
  match v with
  | Some s => JStr s
  | None => JNull
  end.

(** The body of lines 44-60. *)
Definition list_query (env : Env) : json :=
  JArr [JStr "^ "; JStr "~:type"; JStr "~:get-project-workflows"; JStr "~:params";
        JArr [JStr "^ "; JStr "~:organization/vcs-type"; JStr "~:github";
              JStr "~:organization/name"; env_json (CIRCLE_PROJECT_USERNAME env);
              JStr "~:project/name"; env_json (CIRCLE_PROJECT_REPONAME env);
              JStr "~:opts"; JArr [JStr "^ "; JStr "~:offset"; JNum 0; JStr "~:limit"; JNum 30]]].

(** Lines 63-65 on the answer: [res.data], [JSON.stringify], the reader,
    and the [results] field. *)
Definition parse_list_response (resp : result (option json)) : result jsval :=
  data ← resp;
  transitParsed ← match data with
                  | Some j => read j
                  | None => Throw (SyntaxError "undefined is not valid JSON")
                  end;
  extractFromTransitMapByName (Some transitParsed) "results".

Definition getRawWorkflows (env : Env) (w : World) (st : State) : State * result jsval :=
  (send st (list_query env), parse_list_response (list_response w)).

(** ** cancelBuild and Promise.all *)

(** How the promise of one [cancelBuild] call settles: rejected before
    any request, or with the answer to the request it sent. *)
Inductive settled :=
| SyncRejected (e : exn)
| Sent (r : result unit).

(** [cancelBuild(info)], the [i]-th call of the batch. *)
Definition cancelBuild (w : World) (i : nat) (info : WorkflowInfo) (st : State) : State * settled :=
  match cancelQuery_body info with
  | Throw e => (st, SyncRejected e)
  | Ok body => (send st body, Sent (cancel_response w i))
  end.

(** [_.map(buildsToCancel, cancelBuild)]: every call runs up to its
    request before any answer arrives. *)
Fixpoint dispatch (w : World) (i : nat) (infos : list WorkflowInfo) (st : State)
    : State * list settled :=
  match infos with
  | [] => (st, [])
  | info :: rest =>
      let '(st1, p) := cancelBuild w i info st in
      let '(st2, ps) := dispatch w (S i) rest st1 in
      (st2, p :: ps)
  end.

Definition rejection (p : settled) : option exn :=
  match p with
  | SyncRejected e | Sent (Throw e) => Some e
  | Sent (Ok _) => None
  end.

Definition is_sync (p : settled) : bool :=
  match p with SyncRejected _ => true | Sent _ => false end.

(** [Promise.all(ps)]: one [undefined] per promise when all fulfil;
    otherwise the reason of the first promise to reject, the promises
    rejected before any request first, then the answers in the order they
    settle. *)
Definition promise_all (ps : list settled) (order : list nat) : result (list unit) :=
  let idx := seq 0 (length ps) in
  let sync := List.filter (fun i => match ps !! i with Some p => is_sync p | None => false end) idx in
  match head (omap (fun i => ps !! i ≫= rejection) (sync ++ order ++ idx)) with
  | Some e => Throw e
  | None => Ok (map (fun _ => tt) ps)
  end.

(** ** The default export (lines 103-112) *)

Definition default_export (env : Env) (w : World) (userCookie : jsval) (st : State)
    : State * result (list unit) :=
  if negb (js_truthy userCookie) then (st, Throw (ThrowError "You must pass in a valid cookie"))
  else
    let st1 := {| cookie := userCookie; REQUEST_HEADERS := REQUEST_HEADERS st; sent := sent st |} in
    let '(st2, raw) := getRawWorkflows env w st1 in
    match raw ≫= convertRawWorkflows with
    | Throw e => (st2, Throw e)
    | Ok workflows =>
        let '(thisBuild, buildsToCancel) := selectBuilds (CIRCLE_BRANCH env) workflows in
        let '(st3, ps) := dispatch w 0 buildsToCancel st2 in
        (st3, promise_all ps (settle_order w))
    end.

(** The module's life: its load, then calls of the default export. *)
Inductive reachable : State -> Prop :=
| reachable_init : reachable module_init
| reachable_call env w userCookie st :
    reachable st -> reachable (default_export env w userCookie st).1.

(** ** Sample data for the witnesses *)

Definition sample_env : Env := {|
  CIRCLE_BRANCH := Some "main";
  CIRCLE_PROJECT_USERNAME := Some "vinsidious";
  CIRCLE_PROJECT_REPONAME := Some "cancel-circle-workflows"
|}.

(** One workflow of a query-api answer, as the server holds it. *)
Definition sample_workflow_value (n : Z) (st branch : string) : tval :=
  TMap [(TKeyword "workflow/id", TUUID 0 n); (TKeyword "workflow/status", TStr st);
        (TKeyword "workflow/name", TStr "build"); (TKeyword "workflow/created-at", TDate 1581000000000);
        (TKeyword "workflow/trigger-info",
         TMap [(TKeyword "trigger-info/vcs-revision", TStr "abc123");
               (TKeyword "trigger-info/branch", TStr branch)])].

(** Five workflows, newest first: this build, three older builds of
    [main] to cancel, and one build of another branch. *)
Definition sample_answer : tval :=
  TMap [(TKeyword "results", TArray [
    sample_workflow_value 5 "running" "main";
    sample_workflow_value 4 "running" "main";
    sample_workflow_value 3 "running" "dev";
    sample_workflow_value 2 "blocked" "main";
    sample_workflow_value 1 "running" "main"])].

(** The answer as transit writes it: from the second workflow on, every
    key is a cache code. *)
Definition sample_response : json := write sample_answer.

(** The second cancel request fails; the answers settle in the order
    third, first, second. *)
Definition sample_world : World := {|
  list_response := Ok (Some sample_response);
  cancel_response := fun i => if Nat.eqb i 1 then Throw (HttpError 500) else Ok tt;
  settle_order := [2; 0; 1]
|}.

Definition sample_workflows : list WorkflowInfo :=
  match parse_list_response (list_response sample_world) ≫= convertRawWorkflows with
  | Ok ws => ws
  | Throw _ => []
  end.

(** ** Lemmas *)

(** The request [cancelBuild] sends for a record, if it gets that far. *)
Definition cancel_request (hdrs : Headers) (info : WorkflowInfo) : option Request :=
  match cancelQuery_body info with
  | Ok body => Some {| req_url := CIRCLE_QUERY_API; req_data := body; req_headers := hdrs |}
  | Throw _ => None
  end.

(** How the [k]-th promise of the batch settles. *)
Definition settle (w : World) (k : nat) (info : WorkflowInfo) : settled :=
  match cancelQuery_body info with
  | Throw e => SyncRejected e
  | Ok _ => Sent (cancel_response w k)
  end.

Lemma dispatch_state w i infos st :
  (dispatch w i infos st).1 =
  {| cookie := cookie st; REQUEST_HEADERS := REQUEST_HEADERS st;
     sent := sent st ++ omap (cancel_request (REQUEST_HEADERS st)) infos |}.
Proof.
  revert i st; induction infos as [|info infos IH]; intros i st; cbn.
  - destruct st; cbn. by rewrite app_nil_r.
  - unfold cancelBuild, cancel_request. destruct (cancelQuery_body info) as [body|e]; cbn.
    + destruct (dispatch w (S i) infos (send st body)) as [st2 ps] eqn:Hd.
      cbn. specialize (IH (S i) (send st body)). rewrite Hd in IH. cbn in IH.
      rewrite IH. cbn. by rewrite <- app_assoc.
    + destruct (dispatch w (S i) infos st) as [st2 ps] eqn:Hd.
      cbn. specialize (IH (S i) st). by rewrite Hd in IH.
Qed.

Lemma dispatch_settled w i infos st :
  (dispatch w i infos st).2 = zip_with (settle w) (seq i (length infos)) infos.
Proof.
  revert i st; induction infos as [|info infos IH]; intros i st; cbn; [done|].
  unfold cancelBuild, settle. destruct (cancelQuery_body info) as [body|e]; cbn.
  - destruct (dispatch w (S i) infos (send st body)) as [st2 ps] eqn:Hd.
    specialize (IH (S i) (send st body)). rewrite Hd in IH. cbn in *. by rewrite IH.
  - destruct (dispatch w (S i) infos st) as [st2 ps] eqn:Hd.
    specialize (IH (S i) st). rewrite Hd in IH. cbn in *. by rewrite IH.
Qed.

(** The list query goes first, then the cancel requests of the targets. *)
Lemma default_export_state env w c st workflows :
  js_truthy c = true ->
  parse_list_response (list_response w) ≫= convertRawWorkflows = Ok workflows ->
  (default_export env w c st).1 =
  {| cookie := c; REQUEST_HEADERS := REQUEST_HEADERS st;
     sent := sent st ++
       {| req_url := CIRCLE_QUERY_API; req_data := list_query env; req_headers := REQUEST_HEADERS st |}
       :: omap (cancel_request (REQUEST_HEADERS st)) (buildsToCancel (CIRCLE_BRANCH env) workflows) |}.
Proof.
  intros Hc Hw. unfold default_export. rewrite Hc. cbn -[dispatch convertRawWorkflows].
  rewrite Hw. unfold buildsToCancel.
  destruct (selectBuilds _ workflows) as [thisBuild targets]. cbn -[dispatch].
  destruct (dispatch w 0 targets _) as [st3 ps] eqn:Hd.
  pose proof (dispatch_state w 0 targets
    (send {| cookie := c; REQUEST_HEADERS := REQUEST_HEADERS st; sent := sent st |} (list_query env)))
    as Hs.
  rewrite Hd in Hs. cbn in Hs. rewrite Hs. by rewrite <- app_assoc.
Qed.

Lemma default_export_result env w c st workflows :
  js_truthy c = true ->
  parse_list_response (list_response w) ≫= convertRawWorkflows = Ok workflows ->
  let targets := buildsToCancel (CIRCLE_BRANCH env) workflows in
  (default_export env w c st).2 =
    promise_all (zip_with (settle w) (seq 0 (length targets)) targets) (settle_order w).
Proof.
  intros Hc Hw targets. unfold default_export. rewrite Hc. cbn -[dispatch convertRawWorkflows].
  rewrite Hw. subst targets. unfold buildsToCancel.
  destruct (selectBuilds _ workflows) as [thisBuild targets]. cbn -[dispatch].
  destruct (dispatch w 0 targets _) as [st3 ps] eqn:Hd.
  pose proof (dispatch_settled w 0 targets
    (send {| cookie := c; REQUEST_HEADERS := REQUEST_HEADERS st; sent := sent st |} (list_query env)))
    as Hs.
  rewrite Hd in Hs. cbn in Hs. by rewrite Hs.
Qed.

Lemma cancel_requests_headers hdrs infos :
  Forall (fun r => req_headers r = hdrs) (omap (cancel_request hdrs) infos).
Proof.
  induction infos as [|info infos IH]; cbn; [constructor|].
  unfold cancel_request at 1. destruct (cancelQuery_body info); [by constructor|done].
Qed.

(** A call keeps [REQUEST_HEADERS] and appends requests that carry it. *)
Lemma default_export_appends env w c st :
  REQUEST_HEADERS (default_export env w c st).1 = REQUEST_HEADERS st /\
  exists new, sent (default_export env w c st).1 = sent st ++ new /\
    Forall (fun r => req_headers r = REQUEST_HEADERS st) new.
Proof.
  destruct (js_truthy c) eqn:Hc; [|unfold default_export; rewrite Hc; cbn; split;
    [done|exists []; by rewrite app_nil_r]].
  destruct (parse_list_response (list_response w) ≫= convertRawWorkflows) as [workflows|e] eqn:Hw.
  - rewrite (default_export_state env w c st workflows Hc Hw). cbn. split; [done|].
    eexists; split; [done|]. constructor; [done|]. apply cancel_requests_headers.
  - unfold default_export. rewrite Hc. cbn -[convertRawWorkflows]. rewrite Hw. cbn.
    split; [done|]. eexists; split; [done|]. by repeat constructor.
Qed.

Lemma reachable_headers st :
  reachable st ->
  REQUEST_HEADERS st = request_headers undefined /\
  Forall (fun r => req_headers r = request_headers undefined) (sent st).
Proof.
  induction 1 as [|env w c st Hr [Hh Hs]]; [split; [done|constructor]|].
  destruct (default_export_appends env w c st) as [Hh' (new & Hsent & Hnew)].
  rewrite Hh', Hsent, Hh. split; [done|]. apply Forall_app. split; [done|]. by rewrite <- Hh.
Qed.

Lemma head_omap_None {A B} (f : A -> option B) l :
  head (omap f l) = None <-> Forall (fun x => f x = None) l.
Proof.
  induction l as [|x l IH]; cbn; [split; [constructor|done]|].
  destruct (f x) eqn:Hx; cbn; split.
  - discriminate.
  - intros H; inversion H; congruence.
  - intros H%IH. by constructor.
  - intros H; inversion H; subst. by apply IH.
Qed.

Lemma head_omap_Some {A B} (f : A -> option B) l y :
  head (omap f l) = Some y -> exists x, In x l /\ f x = Some y.
Proof.
  induction l as [|x l IH]; cbn; [discriminate|].
  destruct (f x) eqn:Hx; cbn.
  - intros [= ->]. exists x. by split; [left|].
  - intros (x' & Hin & Hf)%IH. exists x'. by split; [right|].
Qed.

(** When [Promise.all] rejects, one of the promises rejected with that reason. *)
Lemma promise_all_rejection ps order e :
  promise_all ps order = Throw e -> Exists (fun p => rejection p = Some e) ps.
Proof.
  unfold promise_all. destruct (head _) as [e'|] eqn:Hh; [|discriminate].
  intros [= ->]. apply head_omap_Some in Hh as (i & _ & Hi).
  destruct (ps !! i) as [p|] eqn:Hp; [|discriminate]. cbn in Hi.
  apply Exists_exists. exists p. split; [|done]. apply list_elem_of_In. by eapply list_elem_of_lookup_2.
Qed.

(** [Promise.all] fulfils, with one [undefined] per promise, exactly when
    no promise rejects. *)
Lemma promise_all_Ok_iff ps order us :
  promise_all ps order = Ok us <->
  Forall (fun p => rejection p = None) ps /\ us = map (fun _ => tt) ps.
Proof.
  unfold promise_all. destruct (head _) as [e|] eqn:Hh; split.
  - discriminate.
  - intros [Hall _]. apply head_omap_Some in Hh as (i & Hin & Hi).
    destruct (ps !! i) as [p|] eqn:Hp; [|discriminate]. cbn in Hi.
    rewrite Forall_lookup in Hall. rewrite (Hall _ _ Hp) in Hi. discriminate.
  - intros [= <-]. split; [|done].
    apply head_omap_None in Hh. apply Forall_app in Hh as [_ Hh]. apply Forall_app in Hh as [_ Hh].
    apply Forall_lookup. intros i p Hp. rewrite Forall_forall in Hh.
    assert (Hi : In i (seq 0 (length ps)))
      by (apply in_seq; apply lookup_lt_Some in Hp; lia).
    specialize (Hh i Hi). rewrite Hp in Hh. exact Hh.
  - by intros [_ ->].
Qed.

(** A property of every promise of the batch, read per build. *)
Lemma Forall_zip_with_seq {A B} (f : nat -> A -> B) (P : B -> Prop) l :
  Forall P (zip_with f (seq 0 (length l)) l) <-> forall k x, l !! k = Some x -> P (f k x).
Proof.
  rewrite Forall_lookup. split.
  - intros H k x Hx. apply (H k). rewrite lookup_zip_with, lookup_seq_lt
      by (eapply lookup_lt_Some; eassumption). cbn. by rewrite Hx.
  - intros H i y (k & x & -> & Hk & Hx)%lookup_zip_with_Some.
    apply lookup_seq in Hk as [-> _]. eauto.
Qed.

Lemma map_zip_with_seq_unit {A B} (f : nat -> A -> B) l :
  map (fun _ => tt) (zip_with f (seq 0 (length l)) l) = map (fun _ => tt) l.
Proof.
  generalize 0. induction l as [|x l IH]; intros i; cbn; [done|]. by rewrite IH.
Qed.

(** [Promise.all([])] fulfils with [[]], whatever the settle order. *)
Lemma promise_all_nil order : promise_all [] order = Ok [].
Proof.
  unfold promise_all. cbn. rewrite (proj2 (head_omap_None _ _)); [done|].
  apply Forall_forall. intros i _. by rewrite lookup_nil.
Qed.

Lemma settle_fulfils w k info :
  rejection (settle w k info) = None <->
  is_ok (cancelQuery_body info) = true /\ is_ok (cancel_response w k) = true.
Proof.
  unfold settle. destruct (cancelQuery_body info); cbn; [|split; [discriminate|intros [[=] _]]].
  destruct (cancel_response w k); cbn; split; [done|done|discriminate|intros [_ [=]]].
Qed.

(** ** Theorems *)

(** C2: the cookie is never sent.  [REQUEST_HEADERS] is built once, when
    the module loads and [cookie] is still [undefined]; the default export
    assigns [cookie] afterwards, which the headers never see.  In every
    state the module reaches, a call with a valid cookie records it and
    yet every request ever sent carries [Cookie: undefined]. *)
Theorem default_export_cookie_unused env w c st :
  reachable st -> js_truthy c = true ->
  cookie (default_export env w c st).1 = c /\
  Forall (fun r => Cookie (req_headers r) = undefined) (sent (default_export env w c st).1).
Proof.
  intros Hr Hc. split.
  - destruct (parse_list_response (list_response w) ≫= convertRawWorkflows) as [workflows|e] eqn:Hw.
    + by rewrite (default_export_state env w c st workflows Hc Hw).
    + unfold default_export. rewrite Hc. cbn -[convertRawWorkflows]. by rewrite Hw.
  - destruct (reachable_headers _ (reachable_call env w c st Hr)) as [_ Hs].
    eapply Forall_impl; [|exact Hs]. intros r ->. done.
Qed.

(** C19: the credential guard: a falsy cookie throws "You must pass in a
    valid cookie" with the state untouched and no request sent; a valid
    cookie always sends the list query first. *)
Theorem default_export_guard env w c st :
  (js_truthy c = false ->
   default_export env w c st = (st, Throw (ThrowError "You must pass in a valid cookie"))) /\
  (js_truthy c = true ->
   exists rest, sent (default_export env w c st).1 =
     sent st ++ {| req_url := CIRCLE_QUERY_API; req_data := list_query env;
                   req_headers := REQUEST_HEADERS st |} :: rest).
Proof.
  split; intros Hc; [unfold default_export; by rewrite Hc|].
  destruct (parse_list_response (list_response w) ≫= convertRawWorkflows) as [workflows|e] eqn:Hw.
  - rewrite (default_export_state env w c st workflows Hc Hw). cbn. by eexists.
  - unfold default_export. rewrite Hc. cbn -[convertRawWorkflows]. rewrite Hw. cbn. by exists [].
Qed.

(** C6: ordering of the requests: after the list query, one cancel request
    per build to cancel whose command could be built, in the order of the
    builds, and nothing else; what the cancel requests answer does not
    change which are sent. *)
Theorem default_export_trace env w c st workflows :
  js_truthy c = true ->
  parse_list_response (list_response w) ≫= convertRawWorkflows = Ok workflows ->
  sent (default_export env w c st).1 =
    sent st ++ {| req_url := CIRCLE_QUERY_API; req_data := list_query env;
                  req_headers := REQUEST_HEADERS st |}
    :: omap (cancel_request (REQUEST_HEADERS st)) (buildsToCancel (CIRCLE_BRANCH env) workflows).
Proof. intros Hc Hw. by rewrite (default_export_state env w c st workflows Hc Hw). Qed.

(** C20: a failure of the list query, of its decoding or of the conversion
    of the workflows aborts the run with that error after the list query
    and before any cancellation. *)
Theorem default_export_fetch_error env w c st e :
  js_truthy c = true ->
  parse_list_response (list_response w) ≫= convertRawWorkflows = Throw e ->
  default_export env w c st =
    ({| cookie := c; REQUEST_HEADERS := REQUEST_HEADERS st;
        sent := sent st ++ [{| req_url := CIRCLE_QUERY_API; req_data := list_query env;
                               req_headers := REQUEST_HEADERS st |}] |}, Throw e).
Proof.
  intros Hc Hw. unfold default_export. rewrite Hc. cbn -[convertRawWorkflows]. by rewrite Hw.
Qed.

(** C7: a run with a valid cookie and a converted workflow list fulfils
    exactly when every build to cancel has a cancel command that builds
    and a request that succeeds; it then fulfils with one [undefined] per
    build to cancel. *)
Theorem default_export_fulfils env w c st workflows us :
  js_truthy c = true ->
  parse_list_response (list_response w) ≫= convertRawWorkflows = Ok workflows ->
  (default_export env w c st).2 = Ok us <->
  (forall k info, buildsToCancel (CIRCLE_BRANCH env) workflows !! k = Some info ->
     is_ok (cancelQuery_body info) = true /\ is_ok (cancel_response w k) = true) /\
  us = map (fun _ => tt) (buildsToCancel (CIRCLE_BRANCH env) workflows).
Proof.
  intros Hc Hw. rewrite (default_export_result env w c st workflows Hc Hw), promise_all_Ok_iff.
  rewrite Forall_zip_with_seq, map_zip_with_seq_unit.
  setoid_rewrite settle_fulfils. done.
Qed.

(** C8: when a run with a valid cookie and a converted workflow list
    rejects, the reason is the failure of one build to cancel: its cancel
    command could not be built, or its request failed.  The run reports
    that one failure, not the list of outcomes the spec asks for. *)
Theorem default_export_rejects env w c st workflows e :
  js_truthy c = true ->
  parse_list_response (list_response w) ≫= convertRawWorkflows = Ok workflows ->
  (default_export env w c st).2 = Throw e ->
  exists k info, buildsToCancel (CIRCLE_BRANCH env) workflows !! k = Some info /\
    (cancelQuery_body info = Throw e \/
     (is_ok (cancelQuery_body info) = true /\ cancel_response w k = Throw e)).
Proof.
  intros Hc Hw He. rewrite (default_export_result env w c st workflows Hc Hw) in He.
  apply promise_all_rejection, Exists_exists in He as (p & Hin & Hp).
  apply list_elem_of_In, list_elem_of_lookup in Hin as [k Hk].
  apply lookup_zip_with_Some in Hk as (k' & info & -> & Hk' & Hinfo).
  apply lookup_seq in Hk' as [-> _]. exists k, info. split; [done|].
  unfold settle in Hp. destruct (cancelQuery_body info); cbn in Hp; [right; split; [done|]|by left; simplify_eq].
  by destruct (cancel_response w k); simplify_eq.
Qed.

(** C14: every build to cancel whose cancel command can be built gets its
    cancel request, whatever the other builds and the answers do: a
    failing cancellation does not keep the others from being sent. *)
Theorem default_export_sends_every_target env w c st workflows info body :
  js_truthy c = true ->
  parse_list_response (list_response w) ≫= convertRawWorkflows = Ok workflows ->
  In info (buildsToCancel (CIRCLE_BRANCH env) workflows) ->
  cancelQuery_body info = Ok body ->
  In {| req_url := CIRCLE_QUERY_API; req_data := body; req_headers := REQUEST_HEADERS st |}
     (sent (default_export env w c st).1).
Proof.
  intros Hc Hw Hin Hb. rewrite (default_export_state env w c st workflows Hc Hw). cbn.
  apply in_or_app. right. right. apply list_elem_of_In, list_elem_of_omap.
  exists info. split; [by apply list_elem_of_In|]. unfold cancel_request. by rewrite Hb.
Qed.

(** C15: an answer whose [results] entry is not an array (missing,
    [null], a number, a string, a map) is not refused as malformed: the
    run sends the list query and nothing else, and either fulfils having
    cancelled nothing or throws a TypeError from [getInfoForWorkflow]. *)
Theorem default_export_results_not_array env w c st v :
  js_truthy c = true ->
  parse_list_response (list_response w) = Ok v ->
  (forall xs, v <> Some (TArray xs)) ->
  sent (default_export env w c st).1 =
    sent st ++ [{| req_url := CIRCLE_QUERY_API; req_data := list_query env;
                   req_headers := REQUEST_HEADERS st |}] /\
  ((default_export env w c st).2 = Ok [] \/
   exists m, (default_export env w c st).2 = Throw (TypeError m)).
Proof.
  intros Hc Hp Hv. destruct (convertRawWorkflows_not_array v Hv) as [Hw|[m Hw]].
  - assert (Hw' : parse_list_response (list_response w) ≫= convertRawWorkflows = Ok [])
      by (rewrite Hp; exact Hw).
    rewrite (default_export_state env w c st [] Hc Hw'),
      (default_export_result env w c st [] Hc Hw'). split; [reflexivity|left].
    apply promise_all_nil.
  - unfold default_export. rewrite Hc. cbn -[convertRawWorkflows]. rewrite Hp. cbn.
    rewrite Hw. split; [done|]. right. by eexists.
Qed.

(** C26: the list query is a transit map with the structure the endpoint
    expects, the organization and project names included, when these
    names need no transit escaping. *)
Theorem list_query_read env user repo :
  CIRCLE_PROJECT_USERNAME env = Some user -> CIRCLE_PROJECT_REPONAME env = Some repo ->
  escape user = user -> escape repo = repo ->
  read (list_query env) =
    Ok (TMap [(TKeyword "type", TKeyword "get-project-workflows");
              (TKeyword "params",
               TMap [(TKeyword "organization/vcs-type", TKeyword "github");
                     (TKeyword "organization/name", TStr user);
                     (TKeyword "project/name", TStr repo);
                     (TKeyword "opts", TMap [(TKeyword "offset", TInt 0); (TKeyword "limit", TInt 30)])])]).
Proof.
  intros Hu Hr Heu Her. unfold read, list_query. rewrite Hu, Hr. cbn [env_json].
  rewrite decode_JArr_map. erewrite rbind_step; [reflexivity|].
  eapply rpairs_cons_Ok; [reflexivity|reflexivity|].
  eapply rpairs_cons_Ok; [reflexivity| |reflexivity].
  rewrite decode_JArr_map. erewrite rbind_step; [reflexivity|].
  eapply rpairs_cons_Ok; [reflexivity|reflexivity|].
  eapply rpairs_cons_Ok; [reflexivity|apply decode_plain, Heu|].
  eapply rpairs_cons_Ok; [reflexivity|apply decode_plain, Her|].
  eapply rpairs_cons_Ok; [reflexivity|reflexivity|reflexivity].
Qed.

(** C10: the workflows the code reads do not depend on how transit wrote
    the answer: for any well-formed answer the server writes, cache codes
    included, [getRawWorkflows]' decoding (lines 63-65) gives the
    [results] field of the value the server wrote. *)
Theorem parse_list_response_write v :
  wf v = true ->
  parse_list_response (Ok (Some (write v))) = extractFromTransitMapByName (Some v) "results".
Proof.
  intros H. unfold parse_list_response. cbn -[read write extractFromTransitMapByName].
  by rewrite write_read.
Qed.

(** ** Witnesses *)

Lemma default_export_cookie_unused_witness :
  reachable module_init /\ js_truthy (Some (TStr "session=1")) = true /\
  cookie (default_export sample_env sample_world (Some (TStr "session=1")) module_init).1 =
    Some (TStr "session=1") /\
  Forall (fun r => Cookie (req_headers r) = undefined)
    (sent (default_export sample_env sample_world (Some (TStr "session=1")) module_init).1).
Proof.
  assert (Hr : reachable module_init) by constructor.
  assert (Hc : js_truthy (Some (TStr "session=1")) = true) by reflexivity.
  split; [exact Hr|]. split; [exact Hc|].
  exact (default_export_cookie_unused sample_env sample_world _ _ Hr Hc).
Defined.

Lemma default_export_guard_witness :
  (js_truthy (Some (TStr "")) = false ->
   default_export sample_env sample_world (Some (TStr "")) module_init =
     (module_init, Throw (ThrowError "You must pass in a valid cookie"))) /\
  (js_truthy (Some (TStr "")) = true ->
   exists rest, sent (default_export sample_env sample_world (Some (TStr "")) module_init).1 =
     sent module_init ++ {| req_url := CIRCLE_QUERY_API; req_data := list_query sample_env;
                            req_headers := REQUEST_HEADERS module_init |} :: rest).
Proof. exact (default_export_guard sample_env sample_world (Some (TStr "")) module_init). Defined.

Lemma default_export_trace_witness :
  js_truthy (Some (TStr "session=1")) = true /\
  parse_list_response (list_response sample_world) ≫= convertRawWorkflows = Ok sample_workflows /\
  sent (default_export sample_env sample_world (Some (TStr "session=1")) module_init).1 =
    sent module_init ++ {| req_url := CIRCLE_QUERY_API; req_data := list_query sample_env;
                           req_headers := REQUEST_HEADERS module_init |}
    :: omap (cancel_request (REQUEST_HEADERS module_init))
            (buildsToCancel (CIRCLE_BRANCH sample_env) sample_workflows).
Proof.
  assert (Hc : js_truthy (Some (TStr "session=1")) = true) by reflexivity.
  assert (Hw : parse_list_response (list_response sample_world) ≫= convertRawWorkflows = Ok sample_workflows)
    by (vm_compute; reflexivity).
  split; [exact Hc|]. split; [exact Hw|]. exact (default_export_trace _ _ _ _ _ Hc Hw).
Defined.

Lemma default_export_fetch_error_witness :
  js_truthy (Some (TStr "session=1")) = true /\
  parse_list_response (list_response (mkWorld (Throw (HttpError 401)) (fun _ => Ok tt) []))
    ≫= convertRawWorkflows = Throw (HttpError 401) /\
  default_export sample_env (mkWorld (Throw (HttpError 401)) (fun _ => Ok tt) [])
    (Some (TStr "session=1")) module_init =
    ({| cookie := Some (TStr "session=1"); REQUEST_HEADERS := REQUEST_HEADERS module_init;
        sent := sent module_init ++ [{| req_url := CIRCLE_QUERY_API; req_data := list_query sample_env;
                                        req_headers := REQUEST_HEADERS module_init |}] |},
     Throw (HttpError 401)).
Proof.
  assert (Hc : js_truthy (Some (TStr "session=1")) = true) by reflexivity.
  assert (Hw : parse_list_response (list_response (mkWorld (Throw (HttpError 401)) (fun _ => Ok tt) []))
    ≫= convertRawWorkflows = Throw (HttpError 401)) by reflexivity.
  split; [exact Hc|]. split; [exact Hw|]. exact (default_export_fetch_error _ _ _ _ _ Hc Hw).
Defined.

Lemma default_export_rejects_witness :
  js_truthy (Some (TStr "session=1")) = true /\
  parse_list_response (list_response sample_world) ≫= convertRawWorkflows = Ok sample_workflows /\
  (default_export sample_env sample_world (Some (TStr "session=1")) module_init).2 = Throw (HttpError 500) /\
  exists k info, buildsToCancel (CIRCLE_BRANCH sample_env) sample_workflows !! k = Some info /\
    (cancelQuery_body info = Throw (HttpError 500) \/
     (is_ok (cancelQuery_body info) = true /\ cancel_response sample_world k = Throw (HttpError 500))).
Proof.
  assert (Hc : js_truthy (Some (TStr "session=1")) = true) by reflexivity.
  assert (Hw : parse_list_response (list_response sample_world) ≫= convertRawWorkflows = Ok sample_workflows)
    by (vm_compute; reflexivity).
  assert (He : (default_export sample_env sample_world (Some (TStr "session=1")) module_init).2 =
               Throw (HttpError 500)) by (vm_compute; reflexivity).
  split; [exact Hc|]. split; [exact Hw|]. split; [exact He|].
  exact (default_export_rejects _ _ _ _ _ _ Hc Hw He).
Defined.

Lemma list_query_read_witness :
  CIRCLE_PROJECT_USERNAME sample_env = Some "vinsidious" /\
  CIRCLE_PROJECT_REPONAME sample_env = Some "cancel-circle-workflows" /\
  escape "vinsidious" = "vinsidious" /\ escape "cancel-circle-workflows" = "cancel-circle-workflows" /\
  read (list_query sample_env) =
    Ok (TMap [(TKeyword "type", TKeyword "get-project-workflows");
              (TKeyword "params",
               TMap [(TKeyword "organization/vcs-type", TKeyword "github");
                     (TKeyword "organization/name", TStr "vinsidious");
                     (TKeyword "project/name", TStr "cancel-circle-workflows");
                     (TKeyword "opts", TMap [(TKeyword "offset", TInt 0); (TKeyword "limit", TInt 30)])])]).
Proof.
  assert (H1 : CIRCLE_PROJECT_USERNAME sample_env = Some "vinsidious") by reflexivity.
  assert (H2 : CIRCLE_PROJECT_REPONAME sample_env = Some "cancel-circle-workflows") by reflexivity.
  assert (H3 : escape "vinsidious" = "vinsidious") by reflexivity.
  assert (H4 : escape "cancel-circle-workflows" = "cancel-circle-workflows") by reflexivity.
  do 4 (split; [assumption|]). exact (list_query_read _ _ _ H1 H2 H3 H4).
Defined.

Lemma parse_list_response_write_witness :
  wf sample_answer = true /\
  parse_list_response (Ok (Some (write sample_answer))) =
    extractFromTransitMapByName (Some sample_answer) "results".
Proof.
  assert (H : wf sample_answer = true) by reflexivity.
  split; [exact H|]. exact (parse_list_response_write _ H).
Defined.

Lemma default_export_sends_every_target_witness :
  js_truthy (Some (TStr "session=1")) = true /\
  parse_list_response (list_response sample_world) ≫= convertRawWorkflows = Ok sample_workflows /\
  In (nth 1 sample_workflows (sample_info JsUndefined))
     (buildsToCancel (CIRCLE_BRANCH sample_env) sample_workflows) /\
  cancelQuery_body (nth 1 sample_workflows (sample_info JsUndefined)) =
    Ok (write (cancel_command (TUUID 0 4) (TStr "build"))) /\
  In {| req_url := CIRCLE_QUERY_API; req_data := write (cancel_command (TUUID 0 4) (TStr "build"));
        req_headers := REQUEST_HEADERS module_init |}
     (sent (default_export sample_env sample_world (Some (TStr "session=1")) module_init).1).
Proof.
  assert (Hc : js_truthy (Some (TStr "session=1")) = true) by reflexivity.
  assert (Hw : parse_list_response (list_response sample_world) ≫= convertRawWorkflows = Ok sample_workflows)
    by (vm_compute; reflexivity).
  assert (Hin : In (nth 1 sample_workflows (sample_info JsUndefined))
                   (buildsToCancel (CIRCLE_BRANCH sample_env) sample_workflows))
    by (vm_compute; left; reflexivity).
  assert (Hb : cancelQuery_body (nth 1 sample_workflows (sample_info JsUndefined)) =
               Ok (write (cancel_command (TUUID 0 4) (TStr "build")))) by (vm_compute; reflexivity).
  split; [exact Hc|]. split; [exact Hw|]. split; [exact Hin|]. split; [exact Hb|].
  exact (default_export_sends_every_target _ _ _ _ _ _ _ Hc Hw Hin Hb).
Defined.

Lemma default_export_fulfils_witness :
  js_truthy (Some (TStr "session=1")) = true /\
  parse_list_response (list_response (mkWorld (Ok (Some sample_response)) (fun _ => Ok tt) [2; 0; 1]))
    ≫= convertRawWorkflows = Ok sample_workflows /\
  ((default_export sample_env (mkWorld (Ok (Some sample_response)) (fun _ => Ok tt) [2; 0; 1])
      (Some (TStr "session=1")) module_init).2 = Ok [tt; tt; tt] <->
   (forall k info, buildsToCancel (CIRCLE_BRANCH sample_env) sample_workflows !! k = Some info ->
      is_ok (cancelQuery_body info) = true /\
      is_ok (cancel_response (mkWorld (Ok (Some sample_response)) (fun _ => Ok tt) [2; 0; 1]) k) = true) /\
   [tt; tt; tt] = map (fun _ => tt) (buildsToCancel (CIRCLE_BRANCH sample_env) sample_workflows)).
Proof.
  assert (Hc : js_truthy (Some (TStr "session=1")) = true) by reflexivity.
  assert (Hw : parse_list_response (list_response (mkWorld (Ok (Some sample_response)) (fun _ => Ok tt) [2; 0; 1]))
    ≫= convertRawWorkflows = Ok sample_workflows) by (vm_compute; reflexivity).
  split; [exact Hc|]. split; [exact Hw|].
  exact (default_export_fulfils _ _ _ _ _ [tt; tt; tt] Hc Hw).
Defined.

Lemma default_export_results_not_array_witness :
  js_truthy (Some (TStr "session=1")) = true /\
  parse_list_response (list_response (mkWorld (Ok (Some (write (TMap [(TKeyword "results", TStr "")]))))
    (fun _ => Ok tt) [])) = Ok (Some (TStr "")) /\
  (forall xs, Some (TStr "") <> Some (TArray xs)) /\
  sent (default_export sample_env (mkWorld (Ok (Some (write (TMap [(TKeyword "results", TStr "")]))))
      (fun _ => Ok tt) []) (Some (TStr "session=1")) module_init).1 =
    sent module_init ++ [{| req_url := CIRCLE_QUERY_API; req_data := list_query sample_env;
                            req_headers := REQUEST_HEADERS module_init |}].
Proof.
  assert (Hc : js_truthy (Some (TStr "session=1")) = true) by reflexivity.
  assert (Hp : parse_list_response (list_response (mkWorld (Ok (Some (write (TMap [(TKeyword "results", TStr "")]))))
    (fun _ => Ok tt) [])) = Ok (Some (TStr ""))) by (vm_compute; reflexivity).
  assert (Hv : forall xs, Some (TStr "") <> Some (TArray xs)) by discriminate.
  split; [exact Hc|]. split; [exact Hp|]. split; [exact Hv|].
  exact (proj1 (default_export_results_not_array _ _ _ _ _ Hc Hp Hv)).
Defined.
